(** * barberEasy: the appointment queue of the dashboards, over the
      tables and row-level-security policies of the migration.

    The repository is a React client over a hosted Postgres.  What the
    dashboards do to the [appointments] table is decided by three sources:
    - [src/lib/supabase.ts]: the row types;
    - [supabase/migrations/20251105034427_create_barbershop_schema.sql]:
      the columns, defaults, constraints and the policies every request of
      an authenticated user is filtered through;
    - [src/components/CustomerDashboard.tsx] and
      [src/components/BarberDashboard.tsx]: the requests themselves.

    The database is an explicit value threaded through every operation; a
    request returns either the new database or the error the server
    answers with.  The clock, the signed-in user and the identifier that
    [gen_random_uuid()] draws are inputs of an operation ([Env]). *)

From Stdlib Require Import ZArith List String Bool Sorted Permutation Lia.
Import ListNotations.
Local Open Scope Z_scope.

(* ================================================================== *)
(** ** Tables, constraints and policies (the migration) *)
(* ================================================================== *)

Module Supabase.

Definition uuid := string.
(** A [timestamptz] is an instant; the client's [toISOString()] text is its
    wire format. *)
Definition timestamptz := Z.

(** [profiles]. *)
Record Profile := mkProfile {
  profile_id : uuid;
  email : string;
  full_name : string;
  role : string;                       (* 'barber' | 'customer' *)
  profile_phone : option string;
  profile_created_at : timestamptz;
  profile_updated_at : timestamptz
}.

(** [shops]; the optional coordinates are read by no request below and are
    left out. *)
Record Shop := mkShop {
  shop_pk : uuid;                      (* shops.id *)
  name : string;
  address : string;
  shop_phone : option string;
  opening_time : string;
  closing_time : string;
  shop_created_at : timestamptz;
  shop_updated_at : timestamptz
}.

(** [shop_barbers]. *)
Record ShopBarber := mkShopBarber {
  sb_id : uuid;
  sb_shop_id : uuid;
  sb_barber_id : uuid;
  sb_created_at : timestamptz
}.

(** [appointments]; an optional column is [None] when SQL holds NULL. *)
Record Appointment := mkAppointment {
  id : uuid;
  shop_id : uuid;
  customer_id : uuid;
  barber_id : option uuid;
  status : string;       (* 'waiting' | 'in_progress' | 'completed' | 'cancelled' *)
  queue_position : Z;
  service_type : string;
  notes : option string;
  created_at : timestamptz;
  started_at : option timestamptz;
  completed_at : option timestamptz;
  updated_at : timestamptz
}.

Record Database := mkDatabase {
  profiles : list Profile;
  shops : list Shop;
  shop_barbers : list ShopBarber;
  appointments : list Appointment      (* in insertion order *)
}.

Definition with_appointments (db : Database) (rows : list Appointment) : Database :=
  {| profiles := profiles db; shops := shops db;
     shop_barbers := shop_barbers db; appointments := rows |}.

(** What the server answers with instead of data. *)
Inductive PgError :=
| numeric_value_out_of_range
| check_violation
| insufficient_privilege               (* row-level security *)
| unique_violation
| foreign_key_violation.

Inductive Response (A : Type) :=
| data (a : A)
| error (e : PgError).
Arguments data {A} a.
Arguments error {A} e.

(** *** Column constraints *)

(** [CHECK (status IN ('waiting', 'in_progress', 'completed', 'cancelled'))] *)
Definition status_check (s : string) : bool :=
  (s =? "waiting")%string || (s =? "in_progress")%string
  || (s =? "completed")%string || (s =? "cancelled")%string.

(** [queue_position integer]: a 32-bit signed column. *)
Definition int4_ok (z : Z) : bool := (-2147483648 <=? z) && (z <=? 2147483647).

Definition profile_exists (db : Database) (u : uuid) : bool :=
  existsb (fun p => (profile_id p =? u)%string) (profiles db).

Definition shop_exists (db : Database) (s : uuid) : bool :=
  existsb (fun sh => (shop_pk sh =? s)%string) (shops db).

(** The three [REFERENCES] of [appointments]. *)
Definition references_ok (db : Database) (r : Appointment) : bool :=
  shop_exists db (shop_id r) && profile_exists db (customer_id r)
  && match barber_id r with
     | Some b => profile_exists db b
     | None => true
     end.

(** *** Policies on [appointments]; [uid] is [auth.uid()] *)

(** [EXISTS (SELECT 1 FROM shop_barbers WHERE shop_barbers.shop_id =
    appointments.shop_id AND shop_barbers.barber_id = auth.uid())] *)
Definition barber_of_shop (db : Database) (uid shop : uuid) : bool :=
  existsb (fun sb => (sb_shop_id sb =? shop)%string && (sb_barber_id sb =? uid)%string)
          (shop_barbers db).

(** [EXISTS (SELECT 1 FROM profiles WHERE profiles.id = auth.uid() AND
    profiles.role = <r>)] *)
Definition has_role (db : Database) (uid : uuid) (r : string) : bool :=
  existsb (fun p => (profile_id p =? uid)%string && (role p =? r)%string) (profiles db).

Definition opt_is (o : option uuid) (u : uuid) : bool :=
  match o with
  | Some x => (x =? u)%string
  | None => false
  end.

(** "Customers can view own appointments", the only SELECT policy. *)
Definition select_using (db : Database) (uid : uuid) (r : Appointment) : bool :=
  (uid =? customer_id r)%string
  || opt_is (barber_id r) uid
  || barber_of_shop db uid (shop_id r).

(** "Customers can create appointments", the only INSERT policy. *)
Definition insert_check (db : Database) (uid : uuid) (r : Appointment) : bool :=
  (uid =? customer_id r)%string && has_role db uid "customer".

(** The two UPDATE policies are permissive, so their USING clauses are
    or-ed, and so are their WITH CHECK clauses. *)
Definition customer_update_using (uid : uuid) (r : Appointment) : bool :=
  (uid =? customer_id r)%string.

Definition customer_update_check (uid : uuid) (r : Appointment) : bool :=
  (uid =? customer_id r)%string && (status r =? "cancelled")%string.

Definition barber_update_using (db : Database) (uid : uuid) (r : Appointment) : bool :=
  barber_of_shop db uid (shop_id r).

Definition barber_update_check (db : Database) (uid : uuid) (r : Appointment) : bool :=
  barber_of_shop db uid (shop_id r).

Definition update_using (db : Database) (uid : uuid) (r : Appointment) : bool :=
  customer_update_using uid r || barber_update_using db uid r.

Definition update_check (db : Database) (uid : uuid) (r : Appointment) : bool :=
  customer_update_check uid r || barber_update_check db uid r.

(** *** Requests *)

(** The object of an [insert]: the properties the client sends; a property
    whose value is [undefined] is not sent, and its column takes the
    default (NULL for [notes]). *)
Record AppointmentInsert := mkInsert {
  ins_shop_id : uuid;
  ins_customer_id : uuid;
  ins_service_type : string;
  ins_notes : option string;
  ins_status : string;
  ins_queue_position : Z
}.

(** The row an insert builds: [id] from [gen_random_uuid()], [created_at]
    and [updated_at] from [now()], the other unsent columns NULL. *)
Definition new_row (fresh : uuid) (now : timestamptz) (v : AppointmentInsert) : Appointment :=
  {| id := fresh;
     shop_id := ins_shop_id v;
     customer_id := ins_customer_id v;
     barber_id := None;
     status := ins_status v;
     queue_position := ins_queue_position v;
     service_type := ins_service_type v;
     notes := ins_notes v;
     created_at := now;
     started_at := None;
     completed_at := None;
     updated_at := now |}.

(** What stops a new version of a row from being stored, if anything. *)
Definition insert_violation (db : Database) (uid : uuid) (r : Appointment) : option PgError :=
  if negb (int4_ok (queue_position r)) then Some numeric_value_out_of_range
  else if negb (insert_check db uid r) then Some insufficient_privilege
  else if negb (status_check (status r)) then Some check_violation
  else if existsb (fun x => (id x =? id r)%string) (appointments db) then Some unique_violation
  else if negb (references_ok db r) then Some foreign_key_violation
  else None.

(** [from('appointments').insert(v)], without [select()]: the row is
    appended, or nothing is stored. *)
Definition insert (db : Database) (uid fresh : uuid) (now : timestamptz)
    (v : AppointmentInsert) : Response Database :=
  let r := new_row fresh now v in
  match insert_violation db uid r with
  | Some e => error e
  | None => data (with_appointments db (appointments db ++ [r]))
  end.

(** The object of an [update]: a property is absent ([None]) or holds the
    value to store.  The key [id] is never part of it: a row is addressed
    by the filter. *)
Record AppointmentUpdate := mkUpdate {
  set_shop_id : option uuid;
  set_customer_id : option uuid;
  set_barber_id : option uuid;
  set_status : option string;
  set_queue_position : option Z;
  set_service_type : option string;
  set_notes : option string;
  set_created_at : option timestamptz;
  set_started_at : option timestamptz;
  set_completed_at : option timestamptz;
  set_updated_at : option timestamptz
}.

Definition no_update : AppointmentUpdate :=
  mkUpdate None None None None None None None None None None None.

Definition or_keep {A : Type} (new : option A) (old : A) : A :=
  match new with
  | Some a => a
  | None => old
  end.

Definition or_keep_opt {A : Type} (new : option A) (old : option A) : option A :=
  match new with
  | Some a => Some a
  | None => old
  end.

(** [SET col = value] for each property present; no trigger touches
    [updated_at]. *)
Definition apply_update (u : AppointmentUpdate) (r : Appointment) : Appointment :=
  {| id := id r;
     shop_id := or_keep (set_shop_id u) (shop_id r);
     customer_id := or_keep (set_customer_id u) (customer_id r);
     barber_id := or_keep_opt (set_barber_id u) (barber_id r);
     status := or_keep (set_status u) (status r);
     queue_position := or_keep (set_queue_position u) (queue_position r);
     service_type := or_keep (set_service_type u) (service_type r);
     notes := or_keep_opt (set_notes u) (notes r);
     created_at := or_keep (set_created_at u) (created_at r);
     started_at := or_keep_opt (set_started_at u) (started_at r);
     completed_at := or_keep_opt (set_completed_at u) (completed_at r);
     updated_at := or_keep (set_updated_at u) (updated_at r) |}.

(** The rows [update(u).eq('id', target)] acts on: the filter reads a
    column, so a row must pass the SELECT policy as well as an UPDATE
    policy's USING clause.  A row that does not is skipped silently. *)
Definition update_target (db : Database) (uid target : uuid) (r : Appointment) : bool :=
  (id r =? target)%string && select_using db uid r && update_using db uid r.

(** What stops the new version [r'] of a row from being stored. *)
Definition update_violation (db : Database) (uid : uuid) (r' : Appointment) : option PgError :=
  if negb (int4_ok (queue_position r')) then Some numeric_value_out_of_range
  else if negb (update_check db uid r' && select_using db uid r') then Some insufficient_privilege
  else if negb (status_check (status r')) then Some check_violation
  else if negb (references_ok db r') then Some foreign_key_violation
  else None.

Fixpoint first_violation (db : Database) (uid : uuid) (rows : list Appointment) : option PgError :=
  match rows with
  | [] => None
  | r' :: rest =>
      match update_violation db uid r' with
      | Some e => Some e
      | None => first_violation db uid rest
      end
  end.

(** [from('appointments').update(u).eq('id', target)]: one statement; it
    stores the new version of every row it acts on, or fails as a whole.
    Acting on no row is not an error. *)
Definition update (db : Database) (uid : uuid) (u : AppointmentUpdate) (target : uuid)
  : Response Database :=
  let hit := update_target db uid target in
  match first_violation db uid (map (apply_update u) (filter hit (appointments db))) with
  | Some e => error e
  | None =>
      data (with_appointments db
              (map (fun r => if hit r then apply_update u r else r) (appointments db)))
  end.

(** [ORDER BY queue_position DESC LIMIT 1] read through [maybeSingle()]:
    the largest position of the rows, [null] when there is none. *)
Fixpoint top_queue_position (rows : list Appointment) : option Z :=
  match rows with
  | [] => None
  | r :: rest =>
      match top_queue_position rest with
      | None => Some (queue_position r)
      | Some m => Some (Z.max (queue_position r) m)
      end
  end.

(** [from('appointments').select('queue_position').eq('shop_id', shop)
    .eq('status', 'waiting').order('queue_position', {ascending: false})
    .limit(1).maybeSingle()], as [uid] sees the table. *)
Definition select_top_waiting (db : Database) (uid shop : uuid) : option Z :=
  top_queue_position
    (filter (fun r => select_using db uid r
                      && (shop_id r =? shop)%string
                      && (status r =? "waiting")%string)
            (appointments db)).

(** *** Deleting *)

(** "Barbers can delete appointments in their shops", the only DELETE
    policy. *)
Definition delete_using (db : Database) (uid : uuid) (r : Appointment) : bool :=
  barber_of_shop db uid (shop_id r).

(** The rows [delete().eq('id', target)] acts on; as for an update, the
    filter reads a column, so the SELECT policy applies too. *)
Definition delete_target (db : Database) (uid target : uuid) (r : Appointment) : bool :=
  (id r =? target)%string && select_using db uid r && delete_using db uid r.

(** [from('appointments').delete().eq('id', target)]: no table references
    [appointments], so nothing stops a delete; acting on no row is not an
    error. *)
Definition delete (db : Database) (uid target : uuid) : Response Database :=
  data (with_appointments db
          (filter (fun r => negb (delete_target db uid target r)) (appointments db))).

(** *** Reading lists *)

(** [ORDER BY] fixes the order of an answer only up to rows with equal
    keys: an answer is the selected rows in any order that respects the
    key. *)
Definition ordered_answer {A : Type} (before : A -> A -> Prop)
    (selected answer : list A) : Prop :=
  Permutation selected answer /\ StronglySorted before answer.

(** One such order, for running a dashboard: rows with equal keys stay in
    table order. *)
Fixpoint place {A : Type} (leb : A -> A -> bool) (x : A) (l : list A) : list A :=
  match l with
  | [] => [x]
  | y :: rest => if leb x y then x :: y :: rest else y :: place leb x rest
  end.

Definition arrange {A : Type} (leb : A -> A -> bool) (l : list A) : list A :=
  fold_right (place leb) [] l.

(** [.in('status', ['waiting', 'in_progress'])] *)
Definition active (s : string) : bool :=
  (s =? "waiting")%string || (s =? "in_progress")%string.

(** A many-to-one embed (of [shops], of [profiles] as [customer]): the
    referenced row, [null] when there is none.  Both tables are readable
    by every authenticated user ([USING (true)]). *)
Definition embedded_shop (db : Database) (s : uuid) : option Shop :=
  find (fun sh => (shop_pk sh =? s)%string) (shops db).

Definition embedded_profile (db : Database) (u : uuid) : option Profile :=
  find (fun p => (profile_id p =? u)%string) (profiles db).

(** [CHECK (role IN ('barber', 'customer'))] *)
Definition role_check (r : string) : bool :=
  (r =? "barber")%string || (r =? "customer")%string.

End Supabase.

(* ================================================================== *)
(** ** What a dashboard call runs with *)
(* ================================================================== *)

(** [user] of [useAuth()] (the dashboards are rendered only for a
    signed-in user with a profile, and [auth.uid()] of a request is
    [user.id]), the instant [new Date()] / [now()] gives, and the
    identifier the server draws for an inserted row. *)
Record Env := mkEnv {
  user_id : Supabase.uuid;
  clock : Supabase.timestamptz;
  random_uuid : Supabase.uuid
}.

(** How a handler ends: it runs to its end, leaves at a guard, or shows
    the alert of its [catch]. *)
Inductive Outcome :=
| returned
| returned_early
| alerted (message : string).

(* ================================================================== *)
(** ** CustomerDashboard.tsx *)
(* ================================================================== *)

Module CustomerDashboard.
Import Supabase.

(** The component state [createAppointment] reads and writes; the cached
    lists [shops] and [appointments] are views and carry no decision. *)
Record State := mkState {
  selectedShop : option Shop;
  serviceType : string;
  notes : string;
  loading : bool
}.

Definition setLoading (b : bool) (st : State) : State :=
  {| selectedShop := selectedShop st; serviceType := serviceType st;
     notes := notes st; loading := b |}.

(** [setSelectedShop(null); setServiceType(''); setNotes('')], then the
    [finally]. *)
Definition cleared : State :=
  {| selectedShop := None; serviceType := ""; notes := ""; loading := false |}.

(** [queueData ? queueData.queue_position + 1 : 1] *)
Definition nextPosition (queueData : option Z) : Z :=
  match queueData with
  | Some q => q + 1
  | None => 1
  end.

(** [notes || undefined]: the empty string is falsy. *)
Definition or_undefined (s : string) : option string :=
  if (s =? "")%string then None else Some s.

(** The object passed to [insert] (lines 56-63). *)
Definition inserted (e : Env) (shop : Shop) (st : State) (next : Z) : AppointmentInsert :=
  {| ins_shop_id := shop_pk shop;
     ins_customer_id := user_id e;
     ins_service_type := serviceType st;
     ins_notes := or_undefined (notes st);
     ins_status := "waiting";
     ins_queue_position := next |}.

(** [createAppointment] awaits two requests.  Between them it holds
    [nextPosition] and the database is free to change, so the handler is
    a task that is resumed once per request. *)
Inductive Task :=
| at_select (st : State)
| at_insert (st : State) (shop : Shop) (next : Z)
| finished (o : Outcome) (st : State).

(** Up to the end of the first request (lines 39-52). *)
Definition run_select (e : Env) (st : State) (db : Database) : Task :=
  match selectedShop st with
  | None => finished returned_early st
  | Some shop =>
      if (serviceType st =? "")%string then finished returned_early st
      else
        let queueData := select_top_waiting db (user_id e) (shop_pk shop) in
        at_insert (setLoading true st) shop (nextPosition queueData)
  end.

(** From the second request to the end (lines 54-75). *)
Definition run_insert (e : Env) (st : State) (shop : Shop) (next : Z) (db : Database)
  : Outcome * State * Database :=
  match insert db (user_id e) (random_uuid e) (clock e) (inserted e shop st next) with
  | error _ => (alerted "Failed to create appointment", setLoading false st, db)
  | data db' => (returned, cleared, db')
  end.

(** One resumption of a task. *)
Definition resume (e : Env) (t : Task) (db : Database) : Task * Database :=
  match t with
  | at_select st => (run_select e st db, db)
  | at_insert st shop next =>
      let '(o, st', db') := run_insert e st shop next db in
      (finished o st', db')
  | finished o st => (finished o st, db)
  end.

(** [createAppointment] (lines 38-76), with nothing else touching the
    table between its two requests. *)
Definition createAppointment (e : Env) (st : State) (db : Database)
  : Outcome * State * Database :=
  match selectedShop st with
  | None => (returned_early, st, db)
  | Some shop =>
      if (serviceType st =? "")%string then (returned_early, st, db)
      else
        let queueData := select_top_waiting db (user_id e) (shop_pk shop) in
        run_insert e (setLoading true st) shop (nextPosition queueData) db
  end.

(** [update({ status: 'cancelled' })] *)
Definition cancelled_update : AppointmentUpdate :=
  {| set_shop_id := None; set_customer_id := None; set_barber_id := None;
     set_status := Some "cancelled"%string;
     set_queue_position := None; set_service_type := None; set_notes := None;
     set_created_at := None; set_started_at := None; set_completed_at := None;
     set_updated_at := None |}.

(** [cancelAppointment(id)]: the [error] of the response (nothing is done
    with it but skipping the reload) and the table afterwards. *)
Definition cancelAppointment (e : Env) (db : Database) (target : uuid)
  : option PgError * Database :=
  match update db (user_id e) cancelled_update target with
  | error err => (Some err, db)
  | data db' => (None, db')
  end.

(** Several open dashboards: each has its signed-in user and its task; a
    schedule names, request by request, whose task is resumed next. *)
Definition Client := (Env * Task)%type.

Fixpoint resume_nth (n : nat) (cs : list Client) (db : Database) : list Client * Database :=
  match cs, n with
  | [], _ => ([], db)
  | (e, t) :: rest, O =>
      let '(t', db') := resume e t db in ((e, t') :: rest, db')
  | c :: rest, S m =>
      let '(rest', db') := resume_nth m rest db in (c :: rest', db')
  end.

Fixpoint run_schedule (schedule : list nat) (cs : list Client) (db : Database)
  : list Client * Database :=
  match schedule with
  | [] => (cs, db)
  | n :: later =>
      let '(cs', db') := resume_nth n cs db in run_schedule later cs' db'
  end.

(** The rows of [loadAppointments] (lines 28-36), in table order:
    [.eq('customer_id', user?.id).in('status', ['waiting', 'in_progress'])]
    as the caller sees the table. *)
Definition loadAppointments_rows (e : Env) (db : Database) : list Appointment :=
  filter (fun r => select_using db (user_id e) r
                   && (customer_id r =? user_id e)%string
                   && active (status r))
         (appointments db).

(** [.order('created_at', { ascending: false })] *)
Definition newer_or_same (a b : Appointment) : Prop := created_at b <= created_at a.

Definition newer_or_sameb (a b : Appointment) : bool := created_at b <=? created_at a.

(** What the server may answer [loadAppointments] with, and so what
    [setAppointments] may be given. *)
Definition loadAppointments_answer (e : Env) (db : Database)
    (answer : list Appointment) : Prop :=
  ordered_answer newer_or_same (loadAppointments_rows e db) answer.

(** [loadAppointments], with ties left in table order. *)
Definition loadAppointments (e : Env) (db : Database) : list Appointment :=
  arrange newer_or_sameb (loadAppointments_rows e db).

End CustomerDashboard.

(* ================================================================== *)
(** ** BarberDashboard.tsx *)
(* ================================================================== *)

Module BarberDashboard.
Import Supabase.

(** [{ status, ...updates }]: a property of [updates] replaces the one
    written before it. *)
Definition spread_over_status (status : string) (updates : AppointmentUpdate)
  : AppointmentUpdate :=
  {| set_shop_id := set_shop_id updates;
     set_customer_id := set_customer_id updates;
     set_barber_id := set_barber_id updates;
     set_status := Some (or_keep (set_status updates) status);
     set_queue_position := set_queue_position updates;
     set_service_type := set_service_type updates;
     set_notes := set_notes updates;
     set_created_at := set_created_at updates;
     set_started_at := set_started_at updates;
     set_completed_at := set_completed_at updates;
     set_updated_at := set_updated_at updates |}.

Definition with_started (now : timestamptz) (who : uuid) (u : AppointmentUpdate)
  : AppointmentUpdate :=
  {| set_shop_id := set_shop_id u;
     set_customer_id := set_customer_id u;
     set_barber_id := Some who;
     set_status := set_status u;
     set_queue_position := set_queue_position u;
     set_service_type := set_service_type u;
     set_notes := set_notes u;
     set_created_at := set_created_at u;
     set_started_at := Some now;
     set_completed_at := set_completed_at u;
     set_updated_at := set_updated_at u |}.

Definition with_completed (now : timestamptz) (u : AppointmentUpdate) : AppointmentUpdate :=
  {| set_shop_id := set_shop_id u;
     set_customer_id := set_customer_id u;
     set_barber_id := set_barber_id u;
     set_status := set_status u;
     set_queue_position := set_queue_position u;
     set_service_type := set_service_type u;
     set_notes := set_notes u;
     set_created_at := set_created_at u;
     set_started_at := set_started_at u;
     set_completed_at := Some now;
     set_updated_at := set_updated_at u |}.

(** [updateData] of lines 79-86. *)
Definition updateData (e : Env) (status : string) (updates : AppointmentUpdate)
  : AppointmentUpdate :=
  let d := spread_over_status status updates in
  if (status =? "in_progress")%string then with_started (clock e) (user_id e) d
  else if (status =? "completed")%string then with_completed (clock e) d
  else d.

(** [updateAppointmentStatus(id, status, updates)] *)
Definition updateAppointmentStatus (e : Env) (db : Database) (target : uuid)
    (status : string) (updates : AppointmentUpdate) : Outcome * Database :=
  match update db (user_id e) (updateData e status updates) target with
  | error _ => (alerted "Failed to update appointment", db)
  | data db' => (returned, db')
  end.

(** The "Start Service" button of a waiting card:
    [updateAppointmentStatus(appointment.id, 'in_progress')]. *)
Definition startService (e : Env) (db : Database) (target : uuid) : Outcome * Database :=
  updateAppointmentStatus e db target "in_progress" no_update.

(** The "Complete" button of an in-progress card:
    [updateAppointmentStatus(appointment.id, 'completed')]. *)
Definition completeService (e : Env) (db : Database) (target : uuid) : Outcome * Database :=
  updateAppointmentStatus e db target "completed" no_update.

(** [AppointmentWithCustomer]: a row with the profile its [customer_id]
    references, as the server embeds it. *)
Record AppointmentWithCustomer := mkWithCustomer {
  appointment : Appointment;
  customer : option Profile
}.

Definition with_customer (db : Database) (r : Appointment) : AppointmentWithCustomer :=
  {| appointment := r; customer := embedded_profile db (customer_id r) |}.

(** The component state. *)
Record State := mkState {
  shops : list Shop;
  selectedShop : option Shop;
  appointments : list AppointmentWithCustomer;
  loading : bool
}.

(** The rows of [loadShops] (lines 44-47), in table order:
    [from('shop_barbers')], [shop_id] with its shop embedded,
    [.eq('barber_id', user?.id)]. *)
Definition loadShops_rows (e : Env) (db : Database) : list (uuid * option Shop) :=
  map (fun sb => (sb_shop_id sb, embedded_shop db (sb_shop_id sb)))
      (filter (fun sb => (sb_barber_id sb =? user_id e)%string) (shop_barbers db)).

(** The request has no [order]: any order may be answered. *)
Definition loadShops_answer (e : Env) (db : Database)
    (answer : list (uuid * option Shop)) : Prop :=
  Permutation (loadShops_rows e db) answer.

(** [data.map(item => item.shops).filter(Boolean)] *)
Fixpoint shopList (answer : list (uuid * option Shop)) : list Shop :=
  match answer with
  | [] => []
  | (_, Some sh) :: rest => sh :: shopList rest
  | (_, None) :: rest => shopList rest
  end.

(** What [loadShops] does with its answer (lines 49-55). *)
Definition loadShops (answer : list (uuid * option Shop)) (st : State) : State :=
  {| shops := shopList answer;
     selectedShop :=
       match shopList answer, selectedShop st with
       | first :: _, None => Some first
       | _, chosen => chosen
       end;
     appointments := appointments st;
     loading := loading st |}.

(** The rows of [loadAppointments] (lines 61-69) for a selected shop, in
    table order. *)
Definition loadAppointments_rows (e : Env) (db : Database) (shop : Shop)
  : list AppointmentWithCustomer :=
  map (with_customer db)
      (filter (fun r => select_using db (user_id e) r
                        && (shop_id r =? shop_pk shop)%string
                        && active (status r))
              (Supabase.appointments db)).

(** [.order('queue_position')] *)
Definition ahead_or_level (a b : AppointmentWithCustomer) : Prop :=
  queue_position (appointment a) <= queue_position (appointment b).

Definition ahead_or_levelb (a b : AppointmentWithCustomer) : bool :=
  queue_position (appointment a) <=? queue_position (appointment b).

Definition loadAppointments_answer (e : Env) (db : Database) (shop : Shop)
    (answer : list AppointmentWithCustomer) : Prop :=
  ordered_answer ahead_or_level (loadAppointments_rows e db shop) answer.

(** [loadAppointments] (lines 58-74), with ties left in table order:
    nothing happens without a selected shop. *)
Definition loadAppointments (e : Env) (db : Database) (st : State) : State :=
  match selectedShop st with
  | None => st
  | Some shop =>
      {| shops := shops st; selectedShop := selectedShop st;
         appointments := arrange ahead_or_levelb (loadAppointments_rows e db shop);
         loading := loading st |}
  end.

(** [appointments.filter(a => a.status === 'waiting')] and
    [appointments.filter(a => a.status === 'in_progress')] (lines 115-116). *)
Definition waitingAppointments (l : list AppointmentWithCustomer)
  : list AppointmentWithCustomer :=
  filter (fun a => (status (appointment a) =? "waiting")%string) l.

Definition inProgressAppointments (l : list AppointmentWithCustomer)
  : list AppointmentWithCustomer :=
  filter (fun a => (status (appointment a) =? "in_progress")%string) l.

(** [deleteAppointment(id)] (lines 102-113); [confirmed] is the answer to
    the [confirm] dialog. *)
Definition deleteAppointment (confirmed : bool) (e : Env) (db : Database) (target : uuid)
  : Outcome * Database :=
  if negb confirmed then (returned_early, db)
  else
    match delete db (user_id e) target with
    | error _ => (returned, db)
    | data db' => (returned, db')
    end.

End BarberDashboard.

(* ================================================================== *)
(** ** App.tsx *)
(* ================================================================== *)

Module App.
Import Supabase.

Inductive Screen :=
| LoadingScreen
| LoginForm
| RegisterForm
| BarberDashboardScreen
| CustomerDashboardScreen.

(** [App] (lines 8-33): [user] and [profile] come from [useAuth()],
    [isLogin] is the toggle of the two forms. *)
Definition App (user : option uuid) (profile : option Profile) (loading isLogin : bool)
  : Screen :=
  if loading then LoadingScreen
  else
    match user, profile with
    | Some _, Some p =>
        if (role p =? "barber")%string then BarberDashboardScreen
        else CustomerDashboardScreen
    | _, _ => if isLogin then LoginForm else RegisterForm
    end.

End App.

(* ================================================================== *)
(** ** The constraints of the migration that hold of every stored table *)
(* ================================================================== *)

Module Integrity.
Import Supabase.

Fixpoint distinct (l : list string) : bool :=
  match l with
  | [] => true
  | x :: rest => negb (existsb (String.eqb x) rest) && distinct rest
  end.

(** The column type, the CHECK and the REFERENCES of one appointment. *)
Definition row_ok (db : Database) (r : Appointment) : bool :=
  int4_ok (queue_position r) && status_check (status r) && references_ok db r.

(** The REFERENCES of one [shop_barbers] row. *)
Definition association_ok (db : Database) (sb : ShopBarber) : bool :=
  shop_exists db (sb_shop_id sb) && profile_exists db (sb_barber_id sb).

(** PRIMARY KEY of [appointments], and the above for every row. *)
Definition consistent (db : Database) : bool :=
  distinct (map id (appointments db))
  && forallb (row_ok db) (appointments db)
  && forallb (association_ok db) (shop_barbers db).

End Integrity.

(* ================================================================== *)
(** ** Readings of the queue used in the statements *)
(* ================================================================== *)

Module Queue.
Import Supabase.

(** The appointments of a shop, in creation order. *)
Definition at_shop (db : Database) (shop : uuid) : list Appointment :=
  filter (fun r => (shop_id r =? shop)%string) (appointments db).

(** The waiting appointments of a shop, in creation order. *)
Definition waiting_at (db : Database) (shop : uuid) : list Appointment :=
  filter (fun r => (shop_id r =? shop)%string && (status r =? "waiting")%string)
         (appointments db).

(** Every position ever assigned at a shop, in creation order. *)
Definition assigned_positions (db : Database) (shop : uuid) : list Z :=
  map queue_position (at_shop db shop).

Definition waiting_positions (db : Database) (shop : uuid) : list Z :=
  map queue_position (waiting_at db shop).

(** Positions assigned at a shop increase strictly over creation order,
    so that none is assigned twice. *)
Definition positions_never_reused (db : Database) (shop : uuid) : Prop :=
  StronglySorted Z.lt (assigned_positions db shop).

(** Terminal states. *)
Definition terminal (s : string) : bool :=
  (s =? "completed")%string || (s =? "cancelled")%string.

(** What a completion may not touch. *)
Definition same_but_status_and_completed_at (r r' : Appointment) : Prop :=
  id r' = id r /\ shop_id r' = shop_id r /\ customer_id r' = customer_id r
  /\ barber_id r' = barber_id r /\ queue_position r' = queue_position r
  /\ service_type r' = service_type r /\ notes r' = notes r
  /\ created_at r' = created_at r /\ started_at r' = started_at r
  /\ updated_at r' = updated_at r.

(** What a cancellation may not touch. *)
Definition same_but_status (r r' : Appointment) : Prop :=
  id r' = id r /\ shop_id r' = shop_id r /\ customer_id r' = customer_id r
  /\ barber_id r' = barber_id r /\ queue_position r' = queue_position r
  /\ service_type r' = service_type r /\ notes r' = notes r
  /\ created_at r' = created_at r /\ started_at r' = started_at r
  /\ completed_at r' = completed_at r /\ updated_at r' = updated_at r.

(** What a start may not touch. *)
Definition same_but_status_barber_and_started_at (r r' : Appointment) : Prop :=
  id r' = id r /\ shop_id r' = shop_id r /\ customer_id r' = customer_id r
  /\ queue_position r' = queue_position r
  /\ service_type r' = service_type r /\ notes r' = notes r
  /\ created_at r' = created_at r
  /\ completed_at r' = completed_at r /\ updated_at r' = updated_at r.

(** Booking forms that still have a request to make. *)
Definition open_task (t : CustomerDashboard.Task) : nat :=
  match t with
  | CustomerDashboard.finished _ _ => 0
  | _ => 1
  end.

Fixpoint open_tasks (cs : list CustomerDashboard.Client) : nat :=
  match cs with
  | [] => 0
  | (_, t) :: rest => open_task t + open_tasks rest
  end.

End Queue.

(* ================================================================== *)
(** ** A small town, for the concrete runs *)
(* ================================================================== *)

Module Town.
Import Supabase.
Local Open Scope string_scope.

Definition person (who mail full r : string) : Profile :=
  {| profile_id := who; email := mail; full_name := full; role := r;
     profile_phone := None; profile_created_at := 0; profile_updated_at := 0 |}.

Definition alice : Profile := person "alice" "alice@example.org" "Alice" "customer".
Definition bob : Profile := person "bob" "bob@example.org" "Bob" "customer".
Definition carol : Profile := person "carol" "carol@example.org" "Carol" "barber".
Definition dave : Profile := person "dave" "dave@example.org" "Dave" "barber".

Definition main_street : Shop :=
  {| shop_pk := "shop-1"; name := "Main Street Cuts"; address := "1 Main Street";
     shop_phone := None; opening_time := "09:00:00"; closing_time := "18:00:00";
     shop_created_at := 0; shop_updated_at := 0 |}.

(** Carol works at the shop; Dave is a barber elsewhere. *)
Definition empty_queue : Database :=
  {| profiles := [alice; bob; carol; dave];
     shops := [main_street];
     shop_barbers := [ {| sb_id := "sb-1"; sb_shop_id := "shop-1";
                          sb_barber_id := "carol"; sb_created_at := 0 |} ];
     appointments := [] |}.

Definition booking (who : string) (at_time : Z) (fresh : string) : Env :=
  {| user_id := who; clock := at_time; random_uuid := fresh |}.

Definition form (service note : string) : CustomerDashboard.State :=
  {| CustomerDashboard.selectedShop := Some main_street;
     CustomerDashboard.serviceType := service;
     CustomerDashboard.notes := note;
     CustomerDashboard.loading := false |}.

Definition after_create (e : Env) (st : CustomerDashboard.State) (db : Database) : Database :=
  snd (CustomerDashboard.createAppointment e st db).

Definition after_cancel (e : Env) (target : uuid) (db : Database) : Database :=
  snd (CustomerDashboard.cancelAppointment e db target).

(** Alice waits at position 1. *)
Definition alice_waiting : Database :=
  after_create (booking "alice" 100 "a-1") (form "haircut" "") empty_queue.

(** Alice's appointment, started and completed by Carol. *)
Definition alice_served : Database :=
  snd (BarberDashboard.completeService (booking "carol" 300 "")
         (snd (BarberDashboard.startService (booking "carol" 200 "") alice_waiting "a-1"))
         "a-1").

(** Alice books twice, cancels both, books again. *)
Definition alice_rebooks : Database :=
  after_create (booking "alice" 500 "a-3") (form "haircut" "")
    (after_cancel (booking "alice" 400 "") "a-2"
       (after_cancel (booking "alice" 300 "") "a-1"
          (after_create (booking "alice" 200 "a-2") (form "shave" "")
             alice_waiting))).

(** The row of Alice's appointment as it is stored along the way. *)
Definition alice_row (st : string) (b : option uuid) (started completed : option Z)
  : Appointment :=
  {| id := "a-1"; shop_id := "shop-1"; customer_id := "alice"; barber_id := b;
     status := st; queue_position := 1; service_type := "haircut"; notes := None;
     created_at := 100; started_at := started; completed_at := completed;
     updated_at := 100 |}.

(** Alice's appointment, started by Carol. *)
Definition alice_in_chair : Database :=
  snd (BarberDashboard.startService (booking "carol" 200 "") alice_waiting "a-1").

(** Two dashboards about to book at the same shop. *)
Definition two_tabs : list CustomerDashboard.Client :=
  [ (booking "alice" 100 "a-1", CustomerDashboard.at_select (form "haircut" ""));
    (booking "alice" 101 "a-2", CustomerDashboard.at_select (form "shave" "")) ].

(** Alice waits at the last position a 32-bit column holds. *)
Definition alice_at_the_last_position : Database :=
  with_appointments empty_queue
    [ {| id := "a-1"; shop_id := "shop-1"; customer_id := "alice"; barber_id := None;
         status := "waiting"; queue_position := 2147483647; service_type := "haircut";
         notes := None; created_at := 100; started_at := None; completed_at := None;
         updated_at := 100 |} ].

(** Bob's appointment, waiting at a given position. *)
Definition bob_row (position : Z) : Appointment :=
  {| id := "b-1"; shop_id := "shop-1"; customer_id := "bob"; barber_id := None;
     status := "waiting"; queue_position := position; service_type := "shave";
     notes := Some "trim the sides"; created_at := 150; started_at := None;
     completed_at := None; updated_at := 150 |}.

(** Alice and Bob wait at positions 1 and 2. *)
Definition alice_then_bob : Database :=
  with_appointments empty_queue [alice_row "waiting" None None None; bob_row 2].

End Town.

(* ================================================================== *)
(** ** Properties *)
(* ================================================================== *)

Import Supabase.
Local Open Scope string_scope.

(** *** The tables other than [appointments] are never written *)

Lemma with_appointments_same (db : Database) :
  with_appointments db (appointments db) = db.
Proof. destruct db; reflexivity. Qed.

(** *** Reading the top of the queue *)

Lemma top_queue_position_none rows :
  top_queue_position rows = None -> rows = [].
Proof.
  destruct rows as [|r rest]; [reflexivity|].
  simpl. destruct (top_queue_position rest); discriminate.
Qed.

Lemma top_queue_position_bound rows m :
  top_queue_position rows = Some m ->
  forall r, In r rows -> queue_position r <= m.
Proof.
  revert m. induction rows as [|x rest IH]; intros m Hm r Hr.
  - destruct Hr.
  - simpl in Hm. destruct (top_queue_position rest) as [m'|] eqn:Hrest.
    + injection Hm as <-. destruct Hr as [<-|Hr].
      * lia.
      * specialize (IH m' eq_refl r Hr). lia.
    + injection Hm as <-. apply top_queue_position_none in Hrest. subst rest.
      destruct Hr as [<-|[]]. lia.
Qed.

Lemma top_queue_position_attained rows m :
  top_queue_position rows = Some m ->
  exists r, In r rows /\ queue_position r = m.
Proof.
  revert m. induction rows as [|x rest IH]; intros m Hm; [discriminate|].
  simpl in Hm. destruct (top_queue_position rest) as [m'|] eqn:Hrest.
  - injection Hm as <-. destruct (Z.max_spec (queue_position x) m') as [[_ ->]|[_ ->]].
    + destruct (IH m' eq_refl) as [r [Hr Hq]]. exists r. split; [right; exact Hr|exact Hq].
    + exists x. split; [left; reflexivity|reflexivity].
  - injection Hm as <-. exists x. split; [left; reflexivity|reflexivity].
Qed.

(** *** What an insert stores *)

Lemma insert_data db uid fresh now v db' :
  insert db uid fresh now v = data db' ->
  db' = with_appointments db (appointments db ++ [new_row fresh now v])
  /\ insert_violation db uid (new_row fresh now v) = None.
Proof.
  unfold insert. destruct (insert_violation db uid (new_row fresh now v)); [discriminate|].
  intros H. injection H as <-. split; reflexivity.
Qed.

(** *** What an update stores *)

Lemma update_data db uid u target db' :
  update db uid u target = data db' ->
  appointments db' =
    map (fun r => if update_target db uid target r then apply_update u r else r)
        (appointments db).
Proof.
  unfold update.
  destruct (first_violation db uid _); [discriminate|].
  intros H. injection H as <-. reflexivity.
Qed.

Lemma first_violation_none db uid rows :
  (forall r', In r' rows -> update_violation db uid r' = None) ->
  first_violation db uid rows = None.
Proof.
  induction rows as [|x rest IH]; intros H; [reflexivity|].
  simpl. rewrite (H x (or_introl eq_refl)). apply IH.
  intros r' Hr'. apply H. right. exact Hr'.
Qed.

Lemma filter_none {A : Type} (f : A -> bool) (l : list A) :
  (forall x, In x l -> f x = false) -> filter f l = [].
Proof.
  induction l as [|x rest IH]; intros H; [reflexivity|].
  simpl. rewrite (H x (or_introl eq_refl)). apply IH.
  intros y Hy. apply H. right. exact Hy.
Qed.

Lemma map_untouched {A : Type} (c : A -> bool) (f : A -> A) (l : list A) :
  (forall x, In x l -> c x = false) ->
  map (fun x => if c x then f x else x) l = l.
Proof.
  induction l as [|x rest IH]; intros H; [reflexivity|].
  simpl. rewrite (H x (or_introl eq_refl)). f_equal. apply IH.
  intros y Hy. apply H. right. exact Hy.
Qed.

(** An update whose filter and policies select no row stores nothing and
    is answered without error. *)
Lemma update_matches_nothing db uid u target :
  (forall r, In r (appointments db) -> update_target db uid target r = false) ->
  update db uid u target = data db.
Proof.
  intros H. unfold update.
  rewrite (filter_none _ _ H). simpl.
  rewrite (map_untouched _ _ _ H). rewrite with_appointments_same. reflexivity.
Qed.

(** *** Primary key *)

Lemma distinct_NoDup l : Integrity.distinct l = true -> NoDup l.
Proof.
  induction l as [|x rest IH]; intros H; [constructor|].
  simpl in H. apply andb_prop in H. destruct H as [Hx Hrest].
  constructor; [|apply IH; exact Hrest].
  intros Hin. apply negb_true_iff in Hx.
  assert (existsb (String.eqb x) rest = true) as Hex.
  { apply existsb_exists. exists x. split; [exact Hin|apply String.eqb_refl]. }
  congruence.
Qed.

Lemma same_id_same_row rows a b :
  NoDup (map id rows) -> In a rows -> In b rows -> id a = id b -> a = b.
Proof.
  induction rows as [|x rest IH]; intros Hnd Ha Hb Hid; [destruct Ha|].
  simpl in Hnd. inversion Hnd as [|? ? Hx Hrest]; subst.
  destruct Ha as [<-|Ha], Hb as [<-|Hb].
  - reflexivity.
  - exfalso. apply Hx. rewrite Hid. apply in_map. exact Hb.
  - exfalso. apply Hx. rewrite <- Hid. apply in_map. exact Ha.
  - apply IH; assumption.
Qed.

Lemma consistent_parts db :
  Integrity.consistent db = true ->
  NoDup (map id (appointments db))
  /\ (forall r, In r (appointments db) -> Integrity.row_ok db r = true)
  /\ (forall sb, In sb (shop_barbers db) -> Integrity.association_ok db sb = true).
Proof.
  unfold Integrity.consistent. intros H.
  apply andb_prop in H. destruct H as [H Hsb].
  apply andb_prop in H. destruct H as [Hid Hrows].
  split; [apply distinct_NoDup; exact Hid|].
  split; [apply forallb_forall; exact Hrows|apply forallb_forall; exact Hsb].
Qed.

Lemma row_ok_parts db r :
  Integrity.row_ok db r = true ->
  int4_ok (queue_position r) = true /\ status_check (status r) = true
  /\ shop_exists db (shop_id r) = true /\ profile_exists db (customer_id r) = true.
Proof.
  unfold Integrity.row_ok, references_ok. intros H.
  apply andb_prop in H. destruct H as [H Href].
  apply andb_prop in H. destruct H as [Hint Hst].
  apply andb_prop in Href. destruct Href as [Href _].
  apply andb_prop in Href. destruct Href as [Hshop Hcust].
  repeat split; assumption.
Qed.

(** A barber of a shop has a profile ([shop_barbers.barber_id REFERENCES
    profiles]). *)
Lemma barber_has_profile db uid s :
  Integrity.consistent db = true ->
  barber_of_shop db uid s = true -> profile_exists db uid = true.
Proof.
  intros Hc Hb. destruct (consistent_parts db Hc) as [_ [_ Hsb]].
  unfold barber_of_shop in Hb. apply existsb_exists in Hb.
  destruct Hb as [sb [Hin Heq]]. apply andb_prop in Heq. destruct Heq as [_ Hu].
  apply String.eqb_eq in Hu. subst uid.
  specialize (Hsb sb Hin). unfold Integrity.association_ok in Hsb.
  apply andb_prop in Hsb. exact (proj2 Hsb).
Qed.

(** With a primary key, an update that selects the row at [k] and may
    store its new version does store it there. *)
Lemma update_acts db uid u target k r :
  Integrity.consistent db = true ->
  nth_error (appointments db) k = Some r ->
  update_target db uid target r = true ->
  update_violation db uid (apply_update u r) = None ->
  exists db', update db uid u target = data db'
    /\ nth_error (appointments db') k = Some (apply_update u r).
Proof.
  intros Hc Hk Hhit Hok.
  destruct (consistent_parts db Hc) as [Hnd _].
  assert (Hr : In r (appointments db)) by (eapply nth_error_In; exact Hk).
  assert (Hid : id r = target).
  { unfold update_target in Hhit.
    apply andb_prop in Hhit. destruct Hhit as [Hhit _].
    apply andb_prop in Hhit. destruct Hhit as [Hhit _].
    apply String.eqb_eq. exact Hhit. }
  unfold update. rewrite first_violation_none.
  - eexists. split; [reflexivity|]. simpl.
    rewrite nth_error_map, Hk. simpl. rewrite Hhit. reflexivity.
  - intros r' Hr'. apply in_map_iff in Hr'. destruct Hr' as [x [<- Hx]].
    apply filter_In in Hx. destruct Hx as [Hx Hxhit].
    assert (x = r) as ->.
    { apply (same_id_same_row (appointments db)); try assumption.
      unfold update_target in Hxhit.
      apply andb_prop in Hxhit. destruct Hxhit as [Hxhit _].
      apply andb_prop in Hxhit. destruct Hxhit as [Hxhit _].
      apply String.eqb_eq in Hxhit. congruence. }
    exact Hok.
Qed.

Lemma row_ok_barber db r :
  Integrity.row_ok db r = true ->
  match barber_id r with Some b => profile_exists db b | None => true end = true.
Proof.
  unfold Integrity.row_ok, references_ok. intros H.
  apply andb_prop in H. destruct H as [_ H].
  apply andb_prop in H. exact (proj2 H).
Qed.

(** A new version that keeps the position, the shop and the customer of a
    stored row passes the constraints as soon as its status and barber do
    and the policies admit it. *)
Lemma storable db uid r r1 :
  Integrity.row_ok db r = true ->
  queue_position r1 = queue_position r ->
  shop_id r1 = shop_id r ->
  customer_id r1 = customer_id r ->
  status_check (status r1) = true ->
  match barber_id r1 with Some b => profile_exists db b | None => true end = true ->
  update_check db uid r1 = true ->
  select_using db uid r1 = true ->
  update_violation db uid r1 = None.
Proof.
  intros Hok Hq Hs Hc Hst Hb Hchk Hsel.
  destruct (row_ok_parts db r Hok) as [Hint [_ [Hshop Hcust]]].
  unfold update_violation, references_ok.
  rewrite Hq, Hint, Hchk, Hsel, Hst, Hs, Hshop, Hc, Hcust, Hb. reflexivity.
Qed.

(** The owner's cancellation is stored whatever the status was. *)
Lemma cancel_by_owner e db k r :
  Integrity.consistent db = true ->
  nth_error (appointments db) k = Some r ->
  user_id e = customer_id r ->
  exists db',
    CustomerDashboard.cancelAppointment e db (id r) = (None, db')
    /\ nth_error (appointments db') k
       = Some (apply_update CustomerDashboard.cancelled_update r).
Proof.
  intros Hc Hk Hown.
  destruct (consistent_parts db Hc) as [_ [Hrows _]].
  assert (Hok : Integrity.row_ok db r = true)
    by (apply Hrows; eapply nth_error_In; exact Hk).
  destruct (update_acts db (user_id e) CustomerDashboard.cancelled_update (id r) k r Hc Hk)
    as [db' [Hup Hrow]].
  - unfold update_target, select_using, update_using, customer_update_using.
    rewrite Hown, !String.eqb_refl. reflexivity.
  - apply (storable db (user_id e) r); try reflexivity; try exact Hok.
    + exact (row_ok_barber db r Hok).
    + unfold update_check, customer_update_check.
      change (customer_id (apply_update CustomerDashboard.cancelled_update r))
        with (customer_id r).
      rewrite Hown, String.eqb_refl. reflexivity.
    + unfold select_using.
      change (customer_id (apply_update CustomerDashboard.cancelled_update r))
        with (customer_id r).
      rewrite Hown, String.eqb_refl. reflexivity.
  - exists db'. split; [|exact Hrow].
    unfold CustomerDashboard.cancelAppointment. rewrite Hup. reflexivity.
Qed.

(** The update of a barber of the shop is stored whatever the status was,
    for any status the CHECK admits. *)
Lemma barber_update_stored e db k r u :
  Integrity.consistent db = true ->
  nth_error (appointments db) k = Some r ->
  barber_of_shop db (user_id e) (shop_id r) = true ->
  queue_position (apply_update u r) = queue_position r ->
  shop_id (apply_update u r) = shop_id r ->
  customer_id (apply_update u r) = customer_id r ->
  status_check (status (apply_update u r)) = true ->
  (barber_id (apply_update u r) = barber_id r
   \/ barber_id (apply_update u r) = Some (user_id e)) ->
  exists db',
    update db (user_id e) u (id r) = data db'
    /\ nth_error (appointments db') k = Some (apply_update u r).
Proof.
  intros Hc Hk Hb Hq Hs Hcu Hst Hbar.
  destruct (consistent_parts db Hc) as [_ [Hrows _]].
  assert (Hok : Integrity.row_ok db r = true)
    by (apply Hrows; eapply nth_error_In; exact Hk).
  apply (update_acts db (user_id e) u (id r) k r Hc Hk).
  - unfold update_target, select_using, update_using, barber_update_using.
    rewrite Hb, String.eqb_refl, !orb_true_r. reflexivity.
  - apply (storable db (user_id e) r); try assumption.
    + destruct Hbar as [-> | ->].
      * exact (row_ok_barber db r Hok).
      * exact (barber_has_profile db _ _ Hc Hb).
    + unfold update_check, barber_update_check. rewrite Hs, Hb. apply orb_true_r.
    + unfold select_using. rewrite Hs, Hb. apply orb_true_r.
Qed.

Lemma start_by_barber e db k r :
  Integrity.consistent db = true ->
  nth_error (appointments db) k = Some r ->
  barber_of_shop db (user_id e) (shop_id r) = true ->
  exists db',
    BarberDashboard.startService e db (id r) = (returned, db')
    /\ nth_error (appointments db') k
       = Some (apply_update (BarberDashboard.updateData e "in_progress" no_update) r).
Proof.
  intros Hc Hk Hb.
  destruct (barber_update_stored e db k r
              (BarberDashboard.updateData e "in_progress" no_update) Hc Hk Hb)
    as [db' [Hup Hrow]]; try reflexivity.
  - right. reflexivity.
  - exists db'. split; [|exact Hrow].
    unfold BarberDashboard.startService, BarberDashboard.updateAppointmentStatus.
    rewrite Hup. reflexivity.
Qed.

Lemma complete_by_barber e db k r :
  Integrity.consistent db = true ->
  nth_error (appointments db) k = Some r ->
  barber_of_shop db (user_id e) (shop_id r) = true ->
  exists db',
    BarberDashboard.completeService e db (id r) = (returned, db')
    /\ nth_error (appointments db') k
       = Some (apply_update (BarberDashboard.updateData e "completed" no_update) r).
Proof.
  intros Hc Hk Hb.
  destruct (barber_update_stored e db k r
              (BarberDashboard.updateData e "completed" no_update) Hc Hk Hb)
    as [db' [Hup Hrow]]; try reflexivity.
  - left. reflexivity.
  - exists db'. split; [|exact Hrow].
    unfold BarberDashboard.completeService, BarberDashboard.updateAppointmentStatus.
    rewrite Hup. reflexivity.
Qed.

(** *** The constraints are kept by every request *)

Lemma distinct_snoc l x :
  Integrity.distinct l = true ->
  existsb (fun y => y =? x) l = false ->
  Integrity.distinct (l ++ [x]) = true.
Proof.
  induction l as [|a rest IH]; intros Hd Hx; [reflexivity|].
  simpl in *. apply andb_prop in Hd. destruct Hd as [Ha Hrest].
  apply orb_false_elim in Hx. destruct Hx as [Hax Hx].
  rewrite existsb_app. simpl. rewrite Hax, orb_false_r.
  rewrite Ha. simpl. apply IH; assumption.
Qed.

Lemma existsb_map_id rows x :
  existsb (fun y => y =? x) (map id rows) = existsb (fun r => id r =? x) rows.
Proof.
  induction rows as [|r rest IH]; [reflexivity|]. simpl. rewrite IH. reflexivity.
Qed.

Lemma insert_consistent db uid fresh now v db' :
  Integrity.consistent db = true ->
  insert db uid fresh now v = data db' ->
  Integrity.consistent db' = true.
Proof.
  intros Hc Hins. apply insert_data in Hins. destruct Hins as [-> Hok].
  unfold Integrity.consistent in *.
  apply andb_prop in Hc. destruct Hc as [Hc Hsb].
  apply andb_prop in Hc. destruct Hc as [Hid Hrows].
  unfold insert_violation in Hok.
  destruct (int4_ok (queue_position (new_row fresh now v))) eqn:Hint; [|discriminate].
  destruct (insert_check db uid (new_row fresh now v)); [|discriminate].
  destruct (status_check (status (new_row fresh now v))) eqn:Hst; [|discriminate].
  destruct (existsb _ (appointments db)) eqn:Hfresh; [discriminate|].
  destruct (references_ok db (new_row fresh now v)) eqn:Href; [|discriminate].
  simpl negb in Hok. cbv iota in Hok.
  change (appointments (with_appointments db (appointments db ++ [new_row fresh now v])))
    with (appointments db ++ [new_row fresh now v])%list.
  change (shop_barbers (with_appointments db (appointments db ++ [new_row fresh now v])))
    with (shop_barbers db).
  rewrite map_app. simpl map at 2.
  rewrite distinct_snoc; [|exact Hid|rewrite existsb_map_id; exact Hfresh].
  rewrite forallb_app. simpl forallb at 2.
  change (forallb (Integrity.row_ok (with_appointments db _)) (appointments db))
    with (forallb (Integrity.row_ok db) (appointments db)).
  rewrite Hrows.
  change (Integrity.row_ok (with_appointments db _) (new_row fresh now v))
    with (int4_ok (queue_position (new_row fresh now v))
          && status_check (status (new_row fresh now v))
          && references_ok db (new_row fresh now v)).
  rewrite Hint, Hst, Href. exact Hsb.
Qed.

Lemma first_violation_all db uid rows :
  first_violation db uid rows = None ->
  forall r', In r' rows -> update_violation db uid r' = None.
Proof.
  induction rows as [|x rest IH]; intros H r' Hr'; [destruct Hr'|].
  simpl in H. destruct (update_violation db uid x) eqn:Hx; [discriminate|].
  destruct Hr' as [<-|Hr']; [exact Hx|apply IH; assumption].
Qed.

Lemma update_violation_row_ok db uid r' :
  update_violation db uid r' = None -> Integrity.row_ok db r' = true.
Proof.
  unfold update_violation, Integrity.row_ok.
  destruct (int4_ok (queue_position r')); [|discriminate].
  destruct (update_check db uid r' && select_using db uid r'); [|discriminate].
  destruct (status_check (status r')); [|discriminate].
  destruct (references_ok db r'); [reflexivity|discriminate].
Qed.

Lemma update_consistent db uid u target db' :
  Integrity.consistent db = true ->
  update db uid u target = data db' ->
  Integrity.consistent db' = true.
Proof.
  intros Hc Hup. unfold update in Hup.
  destruct (first_violation db uid _) eqn:Hfirst; [discriminate|].
  injection Hup as <-.
  pose proof (first_violation_all _ _ _ Hfirst) as Hall.
  unfold Integrity.consistent in *.
  apply andb_prop in Hc. destruct Hc as [Hc Hsb].
  apply andb_prop in Hc. destruct Hc as [Hid Hrows].
  set (f := fun r => if update_target db uid target r then apply_update u r else r).
  change (appointments (with_appointments db (map f (appointments db))))
    with (map f (appointments db)).
  change (shop_barbers (with_appointments db (map f (appointments db))))
    with (shop_barbers db).
  change (forallb (Integrity.row_ok (with_appointments db (map f (appointments db)))))
    with (forallb (Integrity.row_ok db)).
  assert (Hids : map id (map f (appointments db)) = map id (appointments db)).
  { rewrite map_map. apply map_ext. intros r. unfold f.
    destruct (update_target db uid target r); reflexivity. }
  rewrite Hids, Hid. apply andb_true_intro. split; [|exact Hsb].
  apply forallb_forall. intros r' Hr'. apply in_map_iff in Hr'.
  destruct Hr' as [r [<- Hr]]. unfold f.
  destruct (update_target db uid target r) eqn:Hhit.
  - apply (update_violation_row_ok db uid). apply Hall.
    apply in_map. apply filter_In. split; assumption.
  - rewrite forallb_forall in Hrows. apply Hrows. exact Hr.
Qed.

(** Whatever the dashboards do, the stored table keeps its constraints. *)
Lemma createAppointment_consistent e st db :
  Integrity.consistent db = true ->
  Integrity.consistent (snd (CustomerDashboard.createAppointment e st db)) = true.
Proof.
  intros Hc. unfold CustomerDashboard.createAppointment, CustomerDashboard.run_insert.
  destruct (CustomerDashboard.selectedShop st) as [shop|]; [|exact Hc].
  destruct (CustomerDashboard.serviceType st =? ""); [exact Hc|].
  destruct (insert _ _ _ _ _) as [db'|err] eqn:Hins; [|exact Hc].
  exact (insert_consistent _ _ _ _ _ _ Hc Hins).
Qed.

Lemma cancelAppointment_consistent e db target :
  Integrity.consistent db = true ->
  Integrity.consistent (snd (CustomerDashboard.cancelAppointment e db target)) = true.
Proof.
  intros Hc. unfold CustomerDashboard.cancelAppointment.
  destruct (update _ _ _ _) as [db'|err] eqn:Hup; [|exact Hc].
  exact (update_consistent _ _ _ _ _ Hc Hup).
Qed.

Lemma updateAppointmentStatus_consistent e db target st u :
  Integrity.consistent db = true ->
  Integrity.consistent
    (snd (BarberDashboard.updateAppointmentStatus e db target st u)) = true.
Proof.
  intros Hc. unfold BarberDashboard.updateAppointmentStatus.
  destruct (update _ _ _ _) as [db'|err] eqn:Hup; [|exact Hc].
  exact (update_consistent _ _ _ _ _ Hc Hup).
Qed.

(** *** One request of [createAppointment] after the other *)

Lemma createAppointment_resumed e st db :
  let '(t1, db1) := CustomerDashboard.resume e (CustomerDashboard.at_select st) db in
  let '(t2, db2) := CustomerDashboard.resume e t1 db1 in
  let '(o, st', db') := CustomerDashboard.createAppointment e st db in
  match t1 with
  | CustomerDashboard.finished _ _ => (t1, db1)
  | _ => (t2, db2)
  end = (CustomerDashboard.finished o st', db').
Proof.
  unfold CustomerDashboard.createAppointment. simpl.
  unfold CustomerDashboard.run_select.
  destruct (CustomerDashboard.selectedShop st) as [shop|]; [|reflexivity].
  destruct (CustomerDashboard.serviceType st =? ""); [reflexivity|].
  simpl. destruct (CustomerDashboard.run_insert _ _ _ _ _) as [[o st'] db'].
  reflexivity.
Qed.

(** What a booking that runs to its end has stored. *)
Lemma createAppointment_returned e st db st' db' :
  CustomerDashboard.createAppointment e st db = (returned, st', db') ->
  exists shop,
    CustomerDashboard.selectedShop st = Some shop
    /\ CustomerDashboard.serviceType st <> ""
    /\ appointments db' =
         (appointments db ++
          [new_row (random_uuid e) (clock e)
             (CustomerDashboard.inserted e shop (CustomerDashboard.setLoading true st)
                (CustomerDashboard.nextPosition
                   (select_top_waiting db (user_id e) (shop_pk shop))))])%list.
Proof.
  unfold CustomerDashboard.createAppointment, CustomerDashboard.run_insert.
  destruct (CustomerDashboard.selectedShop st) as [shop|]; [|discriminate].
  destruct (CustomerDashboard.serviceType st =? "") eqn:Hs; [discriminate|].
  destruct (insert _ _ _ _ _) as [db1|err] eqn:Hins; [|discriminate].
  intros H. injection H as _ <-.
  apply insert_data in Hins. destruct Hins as [-> _].
  exists shop. split; [reflexivity|]. split; [|reflexivity].
  apply String.eqb_neq. exact Hs.
Qed.

(** A booking that does not run to its end has stored nothing. *)
Lemma createAppointment_otherwise e st db :
  fst (fst (CustomerDashboard.createAppointment e st db)) <> returned ->
  snd (CustomerDashboard.createAppointment e st db) = db.
Proof.
  unfold CustomerDashboard.createAppointment, CustomerDashboard.run_insert.
  destruct (CustomerDashboard.selectedShop st) as [shop|]; [|reflexivity].
  destruct (CustomerDashboard.serviceType st =? ""); [reflexivity|].
  destruct (insert _ _ _ _ _); [|reflexivity].
  simpl. intros H. exfalso. apply H. reflexivity.
Qed.

(* ------------------------------------------------------------------ *)
(** *** Position assignment *)
(* ------------------------------------------------------------------ *)

(** What [createAppointment] reads: the largest position among the waiting
    appointments of the shop that the SELECT policy shows to the caller. *)
Lemma select_top_waiting_bound db uid shop m r :
  select_top_waiting db uid shop = Some m ->
  In r (appointments db) ->
  select_using db uid r = true ->
  shop_id r = shop -> status r = "waiting" ->
  queue_position r <= m.
Proof.
  unfold select_top_waiting. intros Hm Hr Hvis Hshop Hst.
  apply (top_queue_position_bound _ m Hm).
  apply filter_In. split; [exact Hr|].
  rewrite Hvis, Hshop, Hst, !String.eqb_refl. reflexivity.
Qed.

Lemma select_top_waiting_null db uid shop r :
  select_top_waiting db uid shop = None ->
  In r (appointments db) ->
  select_using db uid r = true ->
  shop_id r = shop -> status r = "waiting" ->
  False.
Proof.
  unfold select_top_waiting. intros Hm Hr Hvis Hshop Hst.
  apply top_queue_position_none in Hm.
  assert (In r []) as [].
  rewrite <- Hm. apply filter_In. split; [exact Hr|].
  rewrite Hvis, Hshop, Hst, !String.eqb_refl. reflexivity.
Qed.

Lemma select_top_waiting_attained db uid shop m :
  select_top_waiting db uid shop = Some m ->
  exists r,
    In r (appointments db) /\ select_using db uid r = true
    /\ shop_id r = shop /\ status r = "waiting" /\ queue_position r = m.
Proof.
  unfold select_top_waiting. intros Hm.
  destruct (top_queue_position_attained _ m Hm) as [r [Hr Hq]].
  apply filter_In in Hr. destruct Hr as [Hr Hf].
  apply andb_prop in Hf. destruct Hf as [Hf Hst].
  apply andb_prop in Hf. destruct Hf as [Hvis Hshop].
  exists r. split; [exact Hr|]. split; [exact Hvis|].
  split; [apply String.eqb_eq; exact Hshop|].
  split; [apply String.eqb_eq; exact Hst|exact Hq].
Qed.

(** C1, evaluated where it fails: Alice waits at position 1 of the shop
    and Bob, another customer, books there.  The claim puts Bob at
    position 2; the read of [createAppointment] goes through the SELECT
    policy, which hides Alice's row from Bob, so the booking runs to its
    end and stores position 1 a second time. *)
Theorem bob_is_given_the_position_alice_holds :
  let e := Town.booking "bob" 150 "b-1" in
  let db := Town.alice_waiting in
  Queue.waiting_positions db "shop-1" = [1]
  /\ select_top_waiting db (user_id e) "shop-1" = None
  /\ fst (fst (CustomerDashboard.createAppointment e (Town.form "shave" "") db)) = returned
  /\ Queue.waiting_positions
       (snd (CustomerDashboard.createAppointment e (Town.form "shave" "") db)) "shop-1"
     = [1; 1].
Proof. vm_compute. repeat split. Qed.

(** C4 fails as stated: Alice books twice (positions 1 and 2), cancels
    both and books again; the third booking is given position 1 again. *)
Lemma position_reused_after_cancellation :
  Queue.assigned_positions Town.alice_rebooks "shop-1" = [1; 2; 1]
  /\ ~ Queue.positions_never_reused Town.alice_rebooks "shop-1"
  /\ ~ NoDup (Queue.assigned_positions Town.alice_rebooks "shop-1").
Proof.
  split; [vm_compute; reflexivity|]. split.
  - unfold Queue.positions_never_reused.
    replace (Queue.assigned_positions Town.alice_rebooks "shop-1") with [1; 2; 1]
      by (vm_compute; reflexivity).
    intros H. inversion H as [|? ? _ Hall]; subst.
    inversion Hall as [|? ? _ Hall']; subst.
    inversion Hall' as [|? ? Hlt _]; subst. lia.
  - replace (Queue.assigned_positions Town.alice_rebooks "shop-1") with [1; 2; 1]
      by (vm_compute; reflexivity).
    intros H. inversion H as [|? ? Hnotin _]; subst.
    apply Hnotin. right. left. reflexivity.
Qed.

(** C4, amended: when the caller can read every waiting appointment of
    the shop, a booking that runs to its end appends one waiting
    appointment at that shop whose position is strictly greater than the
    position of every appointment waiting there at the time of the read.
    (Positions of appointments that no longer wait are not looked at.) *)
Theorem new_position_exceeds_waiting_ones e st db st' db' shop :
  CustomerDashboard.selectedShop st = Some shop ->
  (forall r, In r (appointments db) ->
             shop_id r = shop_pk shop -> status r = "waiting" ->
             select_using db (user_id e) r = true) ->
  CustomerDashboard.createAppointment e st db = (returned, st', db') ->
  exists r',
    appointments db' = (appointments db ++ [r'])%list
    /\ shop_id r' = shop_pk shop /\ status r' = "waiting"
    /\ forall r, In r (appointments db) ->
                 shop_id r = shop_pk shop -> status r = "waiting" ->
                 queue_position r < queue_position r'.
Proof.
  intros Hshop Hvis Hrun.
  destruct (createAppointment_returned e st db st' db' Hrun) as [shop' [Hs [_ Hrows]]].
  rewrite Hshop in Hs. injection Hs as <-.
  eexists. split; [exact Hrows|]. split; [reflexivity|]. split; [reflexivity|].
  intros r Hr Hrshop Hrst. simpl.
  destruct (select_top_waiting db (user_id e) (shop_pk shop)) as [m|] eqn:Htop.
  - pose proof (select_top_waiting_bound db _ _ m r Htop Hr (Hvis r Hr Hrshop Hrst)
                  Hrshop Hrst).
    simpl. lia.
  - exfalso.
    exact (select_top_waiting_null db _ _ r Htop Hr (Hvis r Hr Hrshop Hrst) Hrshop Hrst).
Qed.

Lemma new_position_exceeds_waiting_ones_witness :
  exists r',
    appointments (Town.after_create (Town.booking "alice" 200 "a-2")
                    (Town.form "shave" "") Town.alice_waiting)
    = (appointments Town.alice_waiting ++ [r'])%list
    /\ shop_id r' = "shop-1" /\ status r' = "waiting"
    /\ forall r, In r (appointments Town.alice_waiting) ->
                 shop_id r = "shop-1" -> status r = "waiting" ->
                 queue_position r < queue_position r'.
Proof.
  apply (new_position_exceeds_waiting_ones
           (Town.booking "alice" 200 "a-2") (Town.form "shave" "") Town.alice_waiting
           CustomerDashboard.cleared
           (Town.after_create (Town.booking "alice" 200 "a-2")
              (Town.form "shave" "") Town.alice_waiting)
           Town.main_street).
  - reflexivity.
  - intros r [<-|[]] _ _. reflexivity.
  - reflexivity.
Defined.

(** C5, evaluated where it fails: two dashboards book at a shop with an
    empty queue.  When both reads are answered before either insert, both
    bookings run to their end with position 1 and the two waiting
    appointments share it; when each booking finishes before the other
    starts, the same two calls get 1 and 2. *)
Theorem interleaved_bookings_share_a_position :
  let interleaved := CustomerDashboard.run_schedule [0; 1; 0; 1]%nat
                       Town.two_tabs Town.empty_queue in
  let one_by_one := CustomerDashboard.run_schedule [0; 0; 1; 1]%nat
                      Town.two_tabs Town.empty_queue in
  map snd (fst interleaved)
    = [CustomerDashboard.finished returned CustomerDashboard.cleared;
       CustomerDashboard.finished returned CustomerDashboard.cleared]
  /\ Queue.waiting_positions (snd interleaved) "shop-1" = [1; 1]
  /\ ~ NoDup (Queue.waiting_positions (snd interleaved) "shop-1")
  /\ Queue.waiting_positions (snd one_by_one) "shop-1" = [1; 2].
Proof.
  cbv zeta.
  replace (Queue.waiting_positions
             (snd (CustomerDashboard.run_schedule [0; 1; 0; 1]%nat
                     Town.two_tabs Town.empty_queue)) "shop-1")
    with [1; 1] by (vm_compute; reflexivity).
  split; [vm_compute; reflexivity|]. split; [reflexivity|]. split.
  - intros H. inversion H as [|? ? Hnotin _]; subst.
    apply Hnotin. left. reflexivity.
  - vm_compute. reflexivity.
Qed.

(* ------------------------------------------------------------------ *)
(** *** Admission *)
(* ------------------------------------------------------------------ *)

(** C9: a booking made with the notes field left empty stores an
    appointment whose [notes] column holds no value. *)
Theorem empty_notes_are_not_stored e st db st' db' :
  CustomerDashboard.notes st = "" ->
  CustomerDashboard.createAppointment e st db = (returned, st', db') ->
  exists r,
    appointments db' = (appointments db ++ [r])%list /\ notes r = None.
Proof.
  intros Hn Hrun.
  destruct (createAppointment_returned e st db st' db' Hrun) as [shop [_ [_ Hrows]]].
  eexists. split; [exact Hrows|].
  simpl. rewrite Hn. reflexivity.
Qed.

Lemma empty_notes_are_not_stored_witness :
  exists r,
    appointments Town.alice_waiting = (appointments Town.empty_queue ++ [r])%list
    /\ notes r = None.
Proof.
  apply (empty_notes_are_not_stored
           (Town.booking "alice" 100 "a-1") (Town.form "haircut" "") Town.empty_queue
           CustomerDashboard.cleared Town.alice_waiting).
  - reflexivity.
  - reflexivity.
Defined.

(** C7 fails as stated: a booking with no service chosen creates nothing,
    but it ends at the guard; no error of any kind is reported. *)
Lemma missing_service_type_reports_nothing :
  CustomerDashboard.createAppointment
    (Town.booking "alice" 100 "a-1") (Town.form "" "") Town.empty_queue
  = (returned_early, Town.form "" "", Town.empty_queue)
  /\ ~ (exists message,
          fst (fst (CustomerDashboard.createAppointment
                      (Town.booking "alice" 100 "a-1") (Town.form "" "")
                      Town.empty_queue))
          = alerted message).
Proof.
  split; [reflexivity|].
  intros [message H]. vm_compute in H. discriminate H.
Qed.

Lemma insert_needs_the_shop db uid fresh now v :
  shop_exists db (ins_shop_id v) = false ->
  exists err, insert db uid fresh now v = error err.
Proof.
  intros Hshop. unfold insert, insert_violation.
  destruct (negb (int4_ok _)); [eexists; reflexivity|].
  destruct (negb (insert_check _ _ _)); [eexists; reflexivity|].
  destruct (negb (status_check _)); [eexists; reflexivity|].
  destruct (existsb _ _); [eexists; reflexivity|].
  unfold references_ok. change (shop_id (new_row fresh now v)) with (ins_shop_id v).
  rewrite Hshop. eexists. reflexivity.
Qed.

(** C7, amended: a booking with no shop selected or with an empty service
    type ends at the guard: nothing is requested, nothing is stored, the
    form is left as it was and no error is reported.  A booking whose
    selected shop is not in the [shops] table stores nothing and shows the
    alert of the handler. *)
Theorem admission_guard e st db :
  ((CustomerDashboard.selectedShop st = None \/ CustomerDashboard.serviceType st = "") ->
   CustomerDashboard.createAppointment e st db = (returned_early, st, db))
  /\ (forall shop,
        CustomerDashboard.selectedShop st = Some shop ->
        CustomerDashboard.serviceType st <> "" ->
        shop_exists db (shop_pk shop) = false ->
        fst (fst (CustomerDashboard.createAppointment e st db))
          = alerted "Failed to create appointment"
        /\ snd (CustomerDashboard.createAppointment e st db) = db).
Proof.
  split.
  - intros [Hshop|Hservice]; unfold CustomerDashboard.createAppointment.
    + rewrite Hshop. reflexivity.
    + rewrite Hservice. destruct (CustomerDashboard.selectedShop st); reflexivity.
  - intros shop Hshop Hservice Hmissing.
    unfold CustomerDashboard.createAppointment, CustomerDashboard.run_insert.
    rewrite Hshop. apply String.eqb_neq in Hservice. rewrite Hservice.
    destruct (insert_needs_the_shop db (user_id e) (random_uuid e) (clock e)
                (CustomerDashboard.inserted e shop (CustomerDashboard.setLoading true st)
                   (CustomerDashboard.nextPosition
                      (select_top_waiting db (user_id e) (shop_pk shop)))) Hmissing)
      as [err ->].
    split; reflexivity.
Qed.

Lemma admission_guard_witness :
  CustomerDashboard.createAppointment
    (Town.booking "alice" 100 "a-1") (Town.form "" "") Town.empty_queue
  = (returned_early, Town.form "" "", Town.empty_queue)
  /\ (fst (fst (CustomerDashboard.createAppointment
                  (Town.booking "alice" 100 "a-1") (Town.form "haircut" "")
                  (mkDatabase [Town.alice] [] [] [])))
      = alerted "Failed to create appointment"
      /\ snd (CustomerDashboard.createAppointment
                (Town.booking "alice" 100 "a-1") (Town.form "haircut" "")
                (mkDatabase [Town.alice] [] [] []))
         = mkDatabase [Town.alice] [] [] []).
Proof.
  split.
  - apply (proj1 (admission_guard (Town.booking "alice" 100 "a-1") (Town.form "" "")
                    Town.empty_queue)).
    right. reflexivity.
  - apply (proj2 (admission_guard (Town.booking "alice" 100 "a-1")
                    (Town.form "haircut" "") (mkDatabase [Town.alice] [] [] []))
             Town.main_street).
    + reflexivity.
    + discriminate.
    + reflexivity.
Defined.

(* ------------------------------------------------------------------ *)
(** *** Cancelling *)
(* ------------------------------------------------------------------ *)

(** C6 fails as stated: Bob cancels Alice's waiting appointment.  The
    record is left as it was, but the request is answered without error:
    nothing like [NotOwner] is reported. *)
Lemma cancel_by_another_customer_reports_no_error :
  map customer_id (appointments Town.alice_waiting) = ["alice"]
  /\ CustomerDashboard.cancelAppointment (Town.booking "bob" 400 "")
       Town.alice_waiting "a-1"
     = (None, Town.alice_waiting)
  /\ ~ (exists err,
          fst (CustomerDashboard.cancelAppointment (Town.booking "bob" 400 "")
                 Town.alice_waiting "a-1") = Some err).
Proof.
  split; [reflexivity|]. split; [reflexivity|].
  intros [err H]. vm_compute in H. discriminate H.
Qed.

(** C6, amended: [cancelAppointment] changes a record only when the acting
    user is its customer or a barber of its shop (the two UPDATE
    policies); for any other actor the update selects no row: the table is
    unchanged and no error is reported. *)
Theorem cancel_needs_owner_or_shop_barber e db target :
  (forall k r r',
      nth_error (appointments db) k = Some r ->
      nth_error (appointments (snd (CustomerDashboard.cancelAppointment e db target))) k
        = Some r' ->
      r' <> r ->
      id r = target
      /\ (user_id e = customer_id r \/ barber_of_shop db (user_id e) (shop_id r) = true))
  /\ ((forall r, In r (appointments db) -> id r = target ->
                 user_id e <> customer_id r
                 /\ barber_of_shop db (user_id e) (shop_id r) = false) ->
      CustomerDashboard.cancelAppointment e db target = (None, db)).
Proof.
  split.
  - intros k r r' Hk Hk' Hchanged.
    unfold CustomerDashboard.cancelAppointment in Hk'.
    destruct (update db (user_id e) CustomerDashboard.cancelled_update target)
      as [db'|err] eqn:Hup; simpl in Hk'.
    + rewrite (update_data _ _ _ _ _ Hup), nth_error_map, Hk in Hk'. simpl in Hk'.
      destruct (update_target db (user_id e) target r) eqn:Hhit.
      * unfold update_target in Hhit.
        apply andb_prop in Hhit. destruct Hhit as [Hhit Husing].
        apply andb_prop in Hhit. destruct Hhit as [Hid _].
        split; [apply String.eqb_eq; exact Hid|].
        unfold update_using, customer_update_using, barber_update_using in Husing.
        apply orb_prop in Husing. destruct Husing as [Hown|Hbarber].
        -- left. apply String.eqb_eq. exact Hown.
        -- right. exact Hbarber.
      * exfalso. apply Hchanged. congruence.
    + exfalso. apply Hchanged. congruence.
  - intros Hstranger. unfold CustomerDashboard.cancelAppointment.
    rewrite update_matches_nothing; [reflexivity|].
    intros r Hr. unfold update_target.
    destruct (id r =? target) eqn:Hid; [|reflexivity].
    apply String.eqb_eq in Hid. destruct (Hstranger r Hr Hid) as [Hne Hnb].
    unfold update_using, customer_update_using, barber_update_using.
    apply String.eqb_neq in Hne. rewrite Hne, Hnb. apply andb_false_r.
Qed.

Lemma cancel_needs_owner_or_shop_barber_witness :
  ("a-1" = "a-1"
   /\ ("alice" = "alice" \/ barber_of_shop Town.alice_waiting "alice" "shop-1" = true))
  /\ CustomerDashboard.cancelAppointment (Town.booking "bob" 400 "")
       Town.alice_waiting "a-1"
     = (None, Town.alice_waiting).
Proof.
  split.
  - apply (proj1 (cancel_needs_owner_or_shop_barber (Town.booking "alice" 400 "")
                    Town.alice_waiting "a-1")
             0%nat (Town.alice_row "waiting" None None None)
             (Town.alice_row "cancelled" None None None)).
    + reflexivity.
    + reflexivity.
    + discriminate.
  - apply (proj2 (cancel_needs_owner_or_shop_barber (Town.booking "bob" 400 "")
                    Town.alice_waiting "a-1")).
    intros r [<-|[]] _. split; [discriminate|reflexivity].
Defined.

(* ------------------------------------------------------------------ *)
(** *** Transitions and the current status *)
(* ------------------------------------------------------------------ *)

(** C2 fails as stated: Alice's appointment is completed and she cancels
    it.  No error is reported and the stored status becomes [cancelled]. *)
Lemma cancel_of_completed_is_stored :
  map status (appointments Town.alice_served) = ["completed"]
  /\ fst (CustomerDashboard.cancelAppointment (Town.booking "alice" 400 "")
            Town.alice_served "a-1") = None
  /\ map status
       (appointments
          (snd (CustomerDashboard.cancelAppointment (Town.booking "alice" 400 "")
                  Town.alice_served "a-1")))
     = ["cancelled"]
  /\ snd (CustomerDashboard.cancelAppointment (Town.booking "alice" 400 "")
            Town.alice_served "a-1") <> Town.alice_served.
Proof.
  split; [reflexivity|]. split; [reflexivity|]. split; [reflexivity|].
  intros H. apply (f_equal (fun d => map status (appointments d))) in H.
  vm_compute in H. discriminate H.
Qed.

(** C2, amended: no transition looks at the status it replaces.  Applied
    to a completed or cancelled appointment by a user the UPDATE policies
    admit (its customer for [cancelAppointment], a barber of its shop for
    [startService] and [completeService]), the operation reports no error
    and stores [cancelled], [in_progress] or [completed] in its place. *)
Theorem terminal_status_is_overwritten e db k r :
  Integrity.consistent db = true ->
  nth_error (appointments db) k = Some r ->
  Queue.terminal (status r) = true ->
  (user_id e = customer_id r ->
   exists db' r',
     CustomerDashboard.cancelAppointment e db (id r) = (None, db')
     /\ nth_error (appointments db') k = Some r' /\ status r' = "cancelled")
  /\ (barber_of_shop db (user_id e) (shop_id r) = true ->
      (exists db' r',
         BarberDashboard.startService e db (id r) = (returned, db')
         /\ nth_error (appointments db') k = Some r' /\ status r' = "in_progress")
      /\ (exists db' r',
            BarberDashboard.completeService e db (id r) = (returned, db')
            /\ nth_error (appointments db') k = Some r' /\ status r' = "completed")).
Proof.
  intros Hc Hk _. split.
  - intros Hown. destruct (cancel_by_owner e db k r Hc Hk Hown) as [db' [Hrun Hrow]].
    exists db'. eexists. split; [exact Hrun|]. split; [exact Hrow|reflexivity].
  - intros Hb. split.
    + destruct (start_by_barber e db k r Hc Hk Hb) as [db' [Hrun Hrow]].
      exists db'. eexists. split; [exact Hrun|]. split; [exact Hrow|reflexivity].
    + destruct (complete_by_barber e db k r Hc Hk Hb) as [db' [Hrun Hrow]].
      exists db'. eexists. split; [exact Hrun|]. split; [exact Hrow|reflexivity].
Qed.

Lemma terminal_status_is_overwritten_witness :
  (exists db' r',
     CustomerDashboard.cancelAppointment (Town.booking "alice" 400 "")
       Town.alice_served "a-1" = (None, db')
     /\ nth_error (appointments db') 0 = Some r' /\ status r' = "cancelled")
  /\ (exists db' r',
        BarberDashboard.startService (Town.booking "carol" 400 "")
          Town.alice_served "a-1" = (returned, db')
        /\ nth_error (appointments db') 0 = Some r' /\ status r' = "in_progress").
Proof.
  split.
  - apply (proj1 (terminal_status_is_overwritten (Town.booking "alice" 400 "")
                    Town.alice_served 0%nat
                    (Town.alice_row "completed" (Some "carol") (Some 200) (Some 300))
                    eq_refl eq_refl eq_refl)).
    reflexivity.
  - apply (proj2 (terminal_status_is_overwritten (Town.booking "carol" 400 "")
                    Town.alice_served 0%nat
                    (Town.alice_row "completed" (Some "carol") (Some 200) (Some 300))
                    eq_refl eq_refl eq_refl)).
    reflexivity.
Defined.

(** C3 fails as stated: Carol presses "Start Service" on an appointment
    that is already completed, and "Complete" on one that still waits.
    Both calls run to their end and both rows are overwritten. *)
Lemma start_and_complete_are_not_conditional :
  map status (appointments Town.alice_served) = ["completed"]
  /\ fst (BarberDashboard.startService (Town.booking "carol" 400 "")
            Town.alice_served "a-1") = returned
  /\ map status
       (appointments (snd (BarberDashboard.startService (Town.booking "carol" 400 "")
                             Town.alice_served "a-1")))
     = ["in_progress"]
  /\ map status (appointments Town.alice_waiting) = ["waiting"]
  /\ fst (BarberDashboard.completeService (Town.booking "carol" 400 "")
            Town.alice_waiting "a-1") = returned
  /\ map status
       (appointments (snd (BarberDashboard.completeService (Town.booking "carol" 400 "")
                             Town.alice_waiting "a-1")))
     = ["completed"].
Proof. repeat split. Qed.

(** C3, amended: [startService] and [completeService] address the row by
    its id alone.  For an appointment in any status, pressed by a barber
    of its shop, [startService] runs to its end and stores [in_progress]
    with [started_at] and [barber_id], and [completeService] runs to its
    end and stores [completed] with [completed_at]; the row's current
    status is not a condition of the update. *)
Theorem start_and_complete_whatever_the_status e db k r :
  Integrity.consistent db = true ->
  nth_error (appointments db) k = Some r ->
  barber_of_shop db (user_id e) (shop_id r) = true ->
  (exists db' r',
     BarberDashboard.startService e db (id r) = (returned, db')
     /\ nth_error (appointments db') k = Some r'
     /\ status r' = "in_progress"
     /\ started_at r' = Some (clock e) /\ barber_id r' = Some (user_id e))
  /\ (exists db' r',
        BarberDashboard.completeService e db (id r) = (returned, db')
        /\ nth_error (appointments db') k = Some r'
        /\ status r' = "completed" /\ completed_at r' = Some (clock e)).
Proof.
  intros Hc Hk Hb. split.
  - destruct (start_by_barber e db k r Hc Hk Hb) as [db' [Hrun Hrow]].
    exists db'. eexists. split; [exact Hrun|]. split; [exact Hrow|].
    repeat split.
  - destruct (complete_by_barber e db k r Hc Hk Hb) as [db' [Hrun Hrow]].
    exists db'. eexists. split; [exact Hrun|]. split; [exact Hrow|].
    repeat split.
Qed.

Lemma start_and_complete_whatever_the_status_witness :
  (exists db' r',
     BarberDashboard.startService (Town.booking "carol" 400 "")
       Town.alice_served "a-1" = (returned, db')
     /\ nth_error (appointments db') 0 = Some r'
     /\ status r' = "in_progress"
     /\ started_at r' = Some 400 /\ barber_id r' = Some "carol")
  /\ (exists db' r',
        BarberDashboard.completeService (Town.booking "carol" 400 "")
          Town.alice_served "a-1" = (returned, db')
        /\ nth_error (appointments db') 0 = Some r'
        /\ status r' = "completed" /\ completed_at r' = Some 400).
Proof.
  apply (start_and_complete_whatever_the_status (Town.booking "carol" 400 "")
           Town.alice_served 0%nat
           (Town.alice_row "completed" (Some "carol") (Some 200) (Some 300))).
  - reflexivity.
  - reflexivity.
  - reflexivity.
Defined.

(* ------------------------------------------------------------------ *)
(** *** What a transition writes *)
(* ------------------------------------------------------------------ *)

(** The row stored at [k] after a barber's update is the old one or its
    new version. *)
Lemma updateAppointmentStatus_row e db target st u k r r' :
  nth_error (appointments db) k = Some r ->
  nth_error (appointments (snd (BarberDashboard.updateAppointmentStatus e db target st u))) k
    = Some r' ->
  r' = r \/ r' = apply_update (BarberDashboard.updateData e st u) r.
Proof.
  intros Hk Hk'. unfold BarberDashboard.updateAppointmentStatus in Hk'.
  destruct (update db (user_id e) (BarberDashboard.updateData e st u) target)
    as [db'|err] eqn:Hup; simpl in Hk'.
  - rewrite (update_data _ _ _ _ _ Hup), nth_error_map, Hk in Hk'. simpl in Hk'.
    destruct (update_target db (user_id e) target r); injection Hk' as <-.
    + right. reflexivity.
    + left. reflexivity.
  - left. congruence.
Qed.

(** C8: an appointment that [startService] takes from [waiting] to
    [in_progress] has [started_at] set to the current time and [barber_id]
    to the acting barber; one that [completeService] takes from
    [in_progress] to [completed] has [completed_at] set to the current
    time. *)
Theorem transition_sets_its_fields e db target k r r' :
  nth_error (appointments db) k = Some r ->
  (status r = "waiting" ->
   nth_error (appointments (snd (BarberDashboard.startService e db target))) k = Some r' ->
   status r' = "in_progress" ->
   started_at r' = Some (clock e) /\ barber_id r' = Some (user_id e))
  /\ (status r = "in_progress" ->
      nth_error (appointments (snd (BarberDashboard.completeService e db target))) k
        = Some r' ->
      status r' = "completed" ->
      completed_at r' = Some (clock e)).
Proof.
  intros Hk. split.
  - intros Hw Hk' Hp.
    destruct (updateAppointmentStatus_row e db target _ _ k r r' Hk Hk') as [->| ->].
    + rewrite Hw in Hp. discriminate Hp.
    + split; reflexivity.
  - intros Hp Hk' Hd.
    destruct (updateAppointmentStatus_row e db target _ _ k r r' Hk Hk') as [->| ->].
    + rewrite Hp in Hd. discriminate Hd.
    + reflexivity.
Qed.

Lemma transition_sets_its_fields_witness :
  (started_at (Town.alice_row "in_progress" (Some "carol") (Some 200) None) = Some 200
   /\ barber_id (Town.alice_row "in_progress" (Some "carol") (Some 200) None)
      = Some "carol")
  /\ completed_at (Town.alice_row "completed" (Some "carol") (Some 200) (Some 300))
     = Some 300.
Proof.
  split.
  - apply (proj1 (transition_sets_its_fields (Town.booking "carol" 200 "")
                    Town.alice_waiting "a-1" 0%nat
                    (Town.alice_row "waiting" None None None)
                    (Town.alice_row "in_progress" (Some "carol") (Some 200) None)
                    eq_refl)); reflexivity.
  - apply (proj2 (transition_sets_its_fields (Town.booking "carol" 300 "")
                    Town.alice_in_chair "a-1" 0%nat
                    (Town.alice_row "in_progress" (Some "carol") (Some 200) None)
                    (Town.alice_row "completed" (Some "carol") (Some 200) (Some 300))
                    eq_refl)); reflexivity.
Defined.

Lemma same_but_refl r : Queue.same_but_status_and_completed_at r r.
Proof. repeat split. Qed.

(** C10: [completeService] leaves every column of every appointment as it
    was, except [status] and [completed_at]. *)
Theorem completeService_frame e db target :
  Forall2 Queue.same_but_status_and_completed_at
    (appointments db)
    (appointments (snd (BarberDashboard.completeService e db target))).
Proof.
  unfold BarberDashboard.completeService, BarberDashboard.updateAppointmentStatus.
  destruct (update db (user_id e) _ target) as [db'|err] eqn:Hup; simpl.
  - rewrite (update_data _ _ _ _ _ Hup).
    induction (appointments db) as [|r rest IH]; simpl; constructor.
    + destruct (update_target db (user_id e) target r).
      * repeat split.
      * apply same_but_refl.
    + exact IH.
  - induction (appointments db) as [|r rest IH]; constructor.
    + apply same_but_refl.
    + exact IH.
Qed.

(* ================================================================== *)
(** ** Further properties of the dashboards *)
(* ================================================================== *)

(** *** Policies *)

Lemma update_using_readable db uid r :
  update_using db uid r = true -> select_using db uid r = true.
Proof.
  unfold update_using, select_using, customer_update_using, barber_update_using.
  intros H. apply orb_prop in H. destruct H as [-> | ->].
  - reflexivity.
  - apply orb_true_r.
Qed.

Lemma delete_using_readable db uid r :
  delete_using db uid r = true -> select_using db uid r = true.
Proof.
  unfold delete_using, select_using. intros ->. apply orb_true_r.
Qed.

Lemma update_target_by_policy db uid target r :
  update_target db uid target r = (id r =? target) && update_using db uid r.
Proof.
  unfold update_target. destruct (update_using db uid r) eqn:H.
  - rewrite (update_using_readable _ _ _ H), !andb_true_r. reflexivity.
  - rewrite !andb_false_r. reflexivity.
Qed.

Lemma delete_target_by_policy db uid target r :
  delete_target db uid target r = (id r =? target) && delete_using db uid r.
Proof.
  unfold delete_target. destruct (delete_using db uid r) eqn:H.
  - rewrite (delete_using_readable _ _ _ H), !andb_true_r. reflexivity.
  - rewrite !andb_false_r. reflexivity.
Qed.

(** No user can update or delete an appointment that the SELECT policy
    hides from them: the rows an update or a delete acts on are those
    with the id that the UPDATE (DELETE) policy admits, and the SELECT
    policy narrows neither. *)
Theorem writes_are_not_narrowed_by_select db uid target r :
  update_target db uid target r = (id r =? target) && update_using db uid r
  /\ delete_target db uid target r = (id r =? target) && delete_using db uid r.
Proof.
  split; [apply update_target_by_policy|apply delete_target_by_policy].
Qed.

(** *** Deleting *)

Lemma delete_rows db uid target db' :
  delete db uid target = data db' ->
  appointments db' = filter (fun r => negb (delete_target db uid target r)) (appointments db).
Proof. unfold delete. intros H. injection H as <-. reflexivity. Qed.

(** A barber of the shop who confirms the dialog removes the appointment,
    whatever its status: afterwards the table holds the rows with another
    id, in their order, and no row with the deleted id. *)
Theorem deleteAppointment_by_shop_barber e db target :
  (forall r, In r (appointments db) -> id r = target ->
             barber_of_shop db (user_id e) (shop_id r) = true) ->
  exists db',
    BarberDashboard.deleteAppointment true e db target = (returned, db')
    /\ appointments db' = filter (fun r => negb (id r =? target)) (appointments db)
    /\ forall r, In r (appointments db') -> id r <> target.
Proof.
  intros Hb. eexists. split; [reflexivity|].
  assert (Hrows : filter (fun r => negb (delete_target db (user_id e) target r))
                    (appointments db)
                  = filter (fun r => negb (id r =? target)) (appointments db)).
  { apply filter_ext_in. intros r Hr.
    rewrite delete_target_by_policy.
    destruct (id r =? target) eqn:Hid; [|reflexivity].
    apply String.eqb_eq in Hid. unfold delete_using. rewrite (Hb r Hr Hid). reflexivity. }
  split; [exact Hrows|].
  simpl. rewrite Hrows. intros r Hr. apply filter_In in Hr. destruct Hr as [_ Hne].
  apply negb_true_iff in Hne. apply String.eqb_neq. exact Hne.
Qed.

Lemma deleteAppointment_by_shop_barber_witness :
  exists db',
    BarberDashboard.deleteAppointment true (Town.booking "carol" 400 "")
      Town.alice_served "a-1" = (returned, db')
    /\ appointments db' = filter (fun r => negb (id r =? "a-1")) (appointments Town.alice_served)
    /\ forall r, In r (appointments db') -> id r <> "a-1".
Proof.
  apply (deleteAppointment_by_shop_barber (Town.booking "carol" 400 "")
           Town.alice_served "a-1").
  intros r [<-|[]] _. reflexivity.
Defined.

(** A delete that is declined at the dialog, or asked by a user who is not
    a barber of the appointment's shop (its own customer included), leaves
    the table as it was; the handler ends without any error. *)
Theorem deleteAppointment_without_right confirmed e db target :
  (confirmed = false
   \/ forall r, In r (appointments db) -> id r = target ->
                barber_of_shop db (user_id e) (shop_id r) = false) ->
  snd (BarberDashboard.deleteAppointment confirmed e db target) = db
  /\ (forall message,
        fst (BarberDashboard.deleteAppointment confirmed e db target) <> alerted message).
Proof.
  intros H. split.
  - destruct H as [-> | Hnot]; [reflexivity|].
    unfold BarberDashboard.deleteAppointment, delete.
    destruct confirmed; [|reflexivity]. simpl.
    replace (filter _ (appointments db)) with (appointments db);
      [apply with_appointments_same|].
    symmetry. apply forallb_filter_id. apply forallb_forall. intros r Hr.
    rewrite delete_target_by_policy.
    destruct (id r =? target) eqn:Hid; [|reflexivity].
    apply String.eqb_eq in Hid. unfold delete_using. rewrite (Hnot r Hr Hid). reflexivity.
  - intros message. unfold BarberDashboard.deleteAppointment, delete.
    destruct confirmed; simpl; discriminate.
Qed.

Lemma deleteAppointment_without_right_witness :
  snd (BarberDashboard.deleteAppointment true (Town.booking "alice" 400 "")
         Town.alice_waiting "a-1") = Town.alice_waiting
  /\ (forall message,
        fst (BarberDashboard.deleteAppointment true (Town.booking "alice" 400 "")
               Town.alice_waiting "a-1") <> alerted message).
Proof.
  apply (deleteAppointment_without_right true (Town.booking "alice" 400 "")
           Town.alice_waiting "a-1").
  right. intros r [<-|[]] _. reflexivity.
Defined.

(** *** The constraints of the migration, along every run *)

Lemma existsb_map_filter_false {A B : Type} (p : B -> bool) (g : A -> B)
    (f : A -> bool) (l : list A) :
  existsb p (map g l) = false -> existsb p (map g (filter f l)) = false.
Proof.
  induction l as [|x rest IH]; intros H; [reflexivity|].
  simpl in H. apply orb_false_elim in H. destruct H as [Hx Hrest].
  simpl. destruct (f x); simpl; [rewrite Hx|]; apply IH; exact Hrest.
Qed.

Lemma distinct_filter (f : Appointment -> bool) rows :
  Integrity.distinct (map id rows) = true ->
  Integrity.distinct (map id (filter f rows)) = true.
Proof.
  induction rows as [|x rest IH]; intros H; [reflexivity|].
  simpl in H. apply andb_prop in H. destruct H as [Hx Hrest].
  simpl. destruct (f x); [|apply IH; exact Hrest].
  simpl. rewrite (IH Hrest), andb_true_r.
  apply negb_true_iff in Hx. apply negb_true_iff.
  apply existsb_map_filter_false. exact Hx.
Qed.

Lemma delete_consistent db uid target db' :
  Integrity.consistent db = true ->
  delete db uid target = data db' ->
  Integrity.consistent db' = true.
Proof.
  intros Hc Hdel. unfold delete in Hdel. injection Hdel as <-.
  unfold Integrity.consistent in *.
  apply andb_prop in Hc. destruct Hc as [Hc Hsb].
  apply andb_prop in Hc. destruct Hc as [Hid Hrows].
  apply andb_true_intro. split; [|exact Hsb].
  apply andb_true_intro. split.
  - apply distinct_filter. exact Hid.
  - apply forallb_forall. intros r Hr.
    change (In r (filter (fun r => negb (delete_target db uid target r))
                    (appointments db))) in Hr.
    apply filter_In in Hr. rewrite forallb_forall in Hrows.
    exact (Hrows r (proj1 Hr)).
Qed.

Lemma deleteAppointment_consistent confirmed e db target :
  Integrity.consistent db = true ->
  Integrity.consistent (snd (BarberDashboard.deleteAppointment confirmed e db target)) = true.
Proof.
  intros Hc. unfold BarberDashboard.deleteAppointment.
  destruct confirmed; [|exact Hc]. simpl negb. cbv iota.
  destruct (delete db (user_id e) target) as [db'|err] eqn:Hdel; [|exact Hc].
  exact (delete_consistent _ _ _ _ Hc Hdel).
Qed.

(** Every handler of the two dashboards keeps the constraints of the
    migration: unique ids, 32-bit positions, one of the four statuses, and
    every reference resolved, whatever the arguments and the outcome. *)
Theorem handlers_keep_the_constraints e db :
  Integrity.consistent db = true ->
  (forall st, Integrity.consistent (snd (CustomerDashboard.createAppointment e st db)) = true)
  /\ (forall target,
        Integrity.consistent (snd (CustomerDashboard.cancelAppointment e db target)) = true)
  /\ (forall target status updates,
        Integrity.consistent
          (snd (BarberDashboard.updateAppointmentStatus e db target status updates)) = true)
  /\ (forall confirmed target,
        Integrity.consistent
          (snd (BarberDashboard.deleteAppointment confirmed e db target)) = true).
Proof.
  intros Hc. split; [|split; [|split]].
  - intros st. apply createAppointment_consistent. exact Hc.
  - intros target. apply cancelAppointment_consistent. exact Hc.
  - intros target status updates. apply updateAppointmentStatus_consistent. exact Hc.
  - intros confirmed target. apply deleteAppointment_consistent. exact Hc.
Qed.

Lemma handlers_keep_the_constraints_witness :
  Integrity.consistent
    (snd (CustomerDashboard.createAppointment (Town.booking "bob" 150 "b-1")
            (Town.form "shave" "") Town.alice_waiting)) = true.
Proof.
  apply (proj1 (handlers_keep_the_constraints (Town.booking "bob" 150 "b-1")
                  Town.alice_waiting eq_refl)).
Defined.

Lemma resume_consistent e t db :
  Integrity.consistent db = true ->
  Integrity.consistent (snd (CustomerDashboard.resume e t db)) = true.
Proof.
  intros Hc. destruct t as [st|st shop next|o st]; simpl; try exact Hc.
  unfold CustomerDashboard.run_insert.
  destruct (insert _ _ _ _ _) as [db'|err] eqn:Hins; simpl; [|exact Hc].
  exact (insert_consistent _ _ _ _ _ _ Hc Hins).
Qed.

Lemma resume_nth_consistent n cs db :
  Integrity.consistent db = true ->
  Integrity.consistent (snd (CustomerDashboard.resume_nth n cs db)) = true.
Proof.
  revert n. induction cs as [|[e t] rest IH]; intros n Hc; [destruct n; exact Hc|].
  destruct n as [|m]; simpl.
  - pose proof (resume_consistent e t db Hc) as H.
    destruct (CustomerDashboard.resume e t db) as [t' db']. exact H.
  - specialize (IH m Hc).
    destruct (CustomerDashboard.resume_nth m rest db) as [rest' db']. exact IH.
Qed.

(** However the requests of any number of open booking forms interleave,
    the table keeps the constraints of the migration. *)
Theorem schedule_keeps_the_constraints schedule cs db :
  Integrity.consistent db = true ->
  Integrity.consistent (snd (CustomerDashboard.run_schedule schedule cs db)) = true.
Proof.
  revert cs db. induction schedule as [|n later IH]; intros cs db Hc; [exact Hc|].
  simpl. pose proof (resume_nth_consistent n cs db Hc) as H.
  destruct (CustomerDashboard.resume_nth n cs db) as [cs' db'].
  apply IH. exact H.
Qed.

Lemma schedule_keeps_the_constraints_witness :
  Integrity.consistent
    (snd (CustomerDashboard.run_schedule [0; 1; 0; 1]%nat Town.two_tabs Town.empty_queue))
  = true.
Proof.
  apply (schedule_keeps_the_constraints [0; 1; 0; 1]%nat Town.two_tabs Town.empty_queue).
  reflexivity.
Defined.

(** *** Bookings only append *)

Lemma run_insert_appends e st shop next db :
  exists tail,
    appointments (snd (CustomerDashboard.run_insert e st shop next db))
    = (appointments db ++ tail)%list
    /\ (List.length tail <= 1)%nat.
Proof.
  unfold CustomerDashboard.run_insert.
  destruct (insert _ _ _ _ _) as [db'|err] eqn:Hins; simpl.
  - apply insert_data in Hins. destruct Hins as [-> _].
    eexists. split; [reflexivity|]. simpl. lia.
  - exists []. split; [rewrite app_nil_r; reflexivity|]. simpl. lia.
Qed.

Lemma resume_appends e t db :
  exists tail,
    appointments (snd (CustomerDashboard.resume e t db)) = (appointments db ++ tail)%list
    /\ (List.length tail + Queue.open_task (fst (CustomerDashboard.resume e t db))
        <= Queue.open_task t)%nat.
Proof.
  destruct t as [st|st shop next|o st].
  - exists []. split; [simpl; rewrite app_nil_r; reflexivity|].
    simpl. destruct (CustomerDashboard.run_select e st db); simpl; lia.
  - destruct (run_insert_appends e st shop next db) as [tail [Hrows Hlen]].
    exists tail. simpl.
    destruct (CustomerDashboard.run_insert e st shop next db) as [[o st'] db'].
    split; [exact Hrows|]. simpl. lia.
  - exists []. split; [simpl; rewrite app_nil_r; reflexivity|]. simpl. lia.
Qed.

Lemma resume_nth_appends n cs db :
  exists tail,
    appointments (snd (CustomerDashboard.resume_nth n cs db)) = (appointments db ++ tail)%list
    /\ (List.length tail + Queue.open_tasks (fst (CustomerDashboard.resume_nth n cs db))
        <= Queue.open_tasks cs)%nat.
Proof.
  revert n. induction cs as [|[e t] rest IH]; intros n.
  - exists []. destruct n; (split; [simpl; rewrite app_nil_r; reflexivity|simpl; lia]).
  - destruct n as [|m]; simpl.
    + destruct (resume_appends e t db) as [tail [Hrows Hlen]].
      exists tail. destruct (CustomerDashboard.resume e t db) as [t' db'].
      split; [exact Hrows|]. simpl in *. lia.
    + destruct (IH m) as [tail [Hrows Hlen]].
      exists tail. destruct (CustomerDashboard.resume_nth m rest db) as [rest' db'].
      split; [exact Hrows|]. simpl in *. lia.
Qed.

Lemma run_schedule_appends schedule cs db :
  exists tail,
    appointments (snd (CustomerDashboard.run_schedule schedule cs db))
    = (appointments db ++ tail)%list
    /\ (List.length tail + Queue.open_tasks (fst (CustomerDashboard.run_schedule schedule cs db))
        <= Queue.open_tasks cs)%nat.
Proof.
  revert cs db. induction schedule as [|n later IH]; intros cs db.
  - exists []. split; [simpl; rewrite app_nil_r; reflexivity|simpl; lia].
  - simpl. destruct (resume_nth_appends n cs db) as [tail1 [Hrows1 Hlen1]].
    destruct (CustomerDashboard.resume_nth n cs db) as [cs' db'].
    destruct (IH cs' db') as [tail2 [Hrows2 Hlen2]].
    exists (tail1 ++ tail2)%list. split.
    + rewrite Hrows2. simpl in Hrows1. rewrite Hrows1, app_assoc. reflexivity.
    + rewrite List.length_app. simpl in Hlen1. lia.
Qed.

Lemma open_tasks_le cs : (Queue.open_tasks cs <= List.length cs)%nat.
Proof.
  induction cs as [|[e t] rest IH]; simpl; [lia|].
  destruct t; simpl; lia.
Qed.

(** However the requests of the open booking forms interleave and however
    often a form is resumed, no stored appointment is changed or removed,
    and each form stores at most one appointment: the table is the old one
    followed by at most as many rows as there were forms with a request
    still to make. *)
Theorem schedule_appends_at_most_one_each schedule cs db :
  exists tail,
    appointments (snd (CustomerDashboard.run_schedule schedule cs db))
    = (appointments db ++ tail)%list
    /\ (List.length tail <= Queue.open_tasks cs)%nat
    /\ (List.length tail <= List.length cs)%nat.
Proof.
  destruct (run_schedule_appends schedule cs db) as [tail [Hrows Hlen]].
  exists tail. split; [exact Hrows|].
  pose proof (open_tasks_le cs). lia.
Qed.

(** *** What a booking stores, and when it is refused *)

(** A booking that runs to its end stores exactly one new row after the
    old ones: a waiting appointment of the caller at the selected shop,
    carrying the chosen service, with no barber and no start or completion
    time.  Any other outcome stores nothing. *)
Theorem createAppointment_stores_one_waiting_row e st db :
  (fst (fst (CustomerDashboard.createAppointment e st db)) = returned ->
   exists shop r,
     CustomerDashboard.selectedShop st = Some shop
     /\ appointments (snd (CustomerDashboard.createAppointment e st db))
        = (appointments db ++ [r])%list
     /\ id r = random_uuid e /\ shop_id r = shop_pk shop
     /\ customer_id r = user_id e /\ status r = "waiting"
     /\ service_type r = CustomerDashboard.serviceType st
     /\ barber_id r = None /\ started_at r = None /\ completed_at r = None
     /\ created_at r = clock e)
  /\ (fst (fst (CustomerDashboard.createAppointment e st db)) <> returned ->
      snd (CustomerDashboard.createAppointment e st db) = db).
Proof.
  split; [|apply createAppointment_otherwise].
  intros Hret.
  destruct (CustomerDashboard.createAppointment e st db) as [[o st'] db'] eqn:Hrun.
  simpl in Hret. subst o.
  destruct (createAppointment_returned e st db st' db' Hrun) as [shop [Hshop [_ Hrows]]].
  exists shop. eexists. split; [exact Hshop|]. split; [exact Hrows|].
  repeat split.
Qed.

Lemma createAppointment_stores_one_waiting_row_witness :
  exists shop r,
    CustomerDashboard.selectedShop (Town.form "haircut" "") = Some shop
    /\ appointments (snd (CustomerDashboard.createAppointment
                            (Town.booking "alice" 100 "a-1") (Town.form "haircut" "")
                            Town.empty_queue))
       = (appointments Town.empty_queue ++ [r])%list
    /\ id r = "a-1" /\ shop_id r = shop_pk shop
    /\ customer_id r = "alice" /\ status r = "waiting"
    /\ service_type r = "haircut"
    /\ barber_id r = None /\ started_at r = None /\ completed_at r = None
    /\ created_at r = 100.
Proof.
  apply (proj1 (createAppointment_stores_one_waiting_row
                  (Town.booking "alice" 100 "a-1") (Town.form "haircut" "")
                  Town.empty_queue)).
  reflexivity.
Defined.

(** A signed-in user without a profile of role [customer] (a barber, for
    one) cannot book: the INSERT policy refuses the row, the handler shows
    its alert and nothing is stored. *)
Theorem createAppointment_needs_customer_role e st db shop :
  CustomerDashboard.selectedShop st = Some shop ->
  CustomerDashboard.serviceType st <> "" ->
  has_role db (user_id e) "customer" = false ->
  CustomerDashboard.createAppointment e st db
  = (alerted "Failed to create appointment",
     CustomerDashboard.setLoading false (CustomerDashboard.setLoading true st), db).
Proof.
  intros Hshop Hservice Hrole.
  unfold CustomerDashboard.createAppointment, CustomerDashboard.run_insert.
  rewrite Hshop. apply String.eqb_neq in Hservice. rewrite Hservice.
  unfold insert, insert_violation.
  destruct (negb (int4_ok _)); [reflexivity|].
  unfold insert_check. rewrite Hrole, andb_false_r. reflexivity.
Qed.

Lemma createAppointment_needs_customer_role_witness :
  CustomerDashboard.createAppointment (Town.booking "carol" 100 "c-1")
    (Town.form "haircut" "") Town.empty_queue
  = (alerted "Failed to create appointment",
     CustomerDashboard.setLoading false
       (CustomerDashboard.setLoading true (Town.form "haircut" "")),
     Town.empty_queue).
Proof.
  apply (createAppointment_needs_customer_role (Town.booking "carol" 100 "c-1")
           (Town.form "haircut" "") Town.empty_queue Town.main_street).
  - reflexivity.
  - discriminate.
  - reflexivity.
Defined.

(** When the largest position the caller reads is the largest a 32-bit
    column holds, the next one does not fit: the insert is refused, the
    handler shows its alert and nothing is stored. *)
Theorem createAppointment_at_the_last_position e st db shop m :
  CustomerDashboard.selectedShop st = Some shop ->
  CustomerDashboard.serviceType st <> "" ->
  select_top_waiting db (user_id e) (shop_pk shop) = Some m ->
  2147483647 <= m ->
  CustomerDashboard.createAppointment e st db
  = (alerted "Failed to create appointment",
     CustomerDashboard.setLoading false (CustomerDashboard.setLoading true st), db).
Proof.
  intros Hshop Hservice Htop Hm.
  unfold CustomerDashboard.createAppointment, CustomerDashboard.run_insert.
  rewrite Hshop. apply String.eqb_neq in Hservice. rewrite Hservice, Htop.
  unfold insert, insert_violation.
  assert (Hint : int4_ok (queue_position
                   (new_row (random_uuid e) (clock e)
                      (CustomerDashboard.inserted e shop
                         (CustomerDashboard.setLoading true st)
                         (CustomerDashboard.nextPosition (Some m))))) = false).
  { unfold int4_ok. simpl. apply andb_false_iff. right. apply Z.leb_gt. lia. }
  rewrite Hint. reflexivity.
Qed.

Lemma createAppointment_at_the_last_position_witness :
  CustomerDashboard.createAppointment (Town.booking "alice" 200 "a-2")
    (Town.form "shave" "") Town.alice_at_the_last_position
  = (alerted "Failed to create appointment",
     CustomerDashboard.setLoading false
       (CustomerDashboard.setLoading true (Town.form "shave" "")),
     Town.alice_at_the_last_position).
Proof.
  apply (createAppointment_at_the_last_position (Town.booking "alice" 200 "a-2")
           (Town.form "shave" "") Town.alice_at_the_last_position Town.main_street
           2147483647).
  - reflexivity.
  - discriminate.
  - reflexivity.
  - lia.
Defined.

(** *** What the transitions do to the rest of the table *)

(** Whatever an update answers, the table afterwards is the old one with
    the new version in place of some rows. *)
Lemma cancelAppointment_rows e db target :
  exists hit : Appointment -> bool,
    appointments (snd (CustomerDashboard.cancelAppointment e db target))
    = map (fun r => if hit r then apply_update CustomerDashboard.cancelled_update r else r)
          (appointments db).
Proof.
  unfold CustomerDashboard.cancelAppointment.
  destruct (update _ _ _ _) as [db'|err] eqn:Hup; simpl.
  - eexists. exact (update_data _ _ _ _ _ Hup).
  - exists (fun _ => false). symmetry. apply map_id.
Qed.

Lemma updateAppointmentStatus_rows e db target st u :
  exists hit : Appointment -> bool,
    appointments (snd (BarberDashboard.updateAppointmentStatus e db target st u))
    = map (fun r => if hit r then apply_update (BarberDashboard.updateData e st u) r else r)
          (appointments db).
Proof.
  unfold BarberDashboard.updateAppointmentStatus.
  destruct (update _ _ _ _) as [db'|err] eqn:Hup; simpl.
  - eexists. exact (update_data _ _ _ _ _ Hup).
  - exists (fun _ => false). symmetry. apply map_id.
Qed.

Lemma Forall2_map_if {A : Type} (R : A -> A -> Prop) (hit : A -> bool) (f : A -> A)
    (l : list A) :
  (forall x, R x x) -> (forall x, R x (f x)) ->
  Forall2 R l (map (fun x => if hit x then f x else x) l).
Proof.
  intros Hrefl Hf. induction l as [|x rest IH]; simpl; constructor; [|exact IH].
  destruct (hit x); [apply Hf|apply Hrefl].
Qed.

(** A cancellation keeps every row in its place and changes no column but
    [status]; a start keeps every row in its place and changes no column
    but [status], [barber_id] and [started_at]. *)
Theorem cancel_and_start_frames e db target :
  Forall2 Queue.same_but_status
    (appointments db)
    (appointments (snd (CustomerDashboard.cancelAppointment e db target)))
  /\ Forall2 Queue.same_but_status_barber_and_started_at
       (appointments db)
       (appointments (snd (BarberDashboard.startService e db target))).
Proof.
  split.
  - destruct (cancelAppointment_rows e db target) as [hit ->].
    apply Forall2_map_if; intros r; repeat split.
  - unfold BarberDashboard.startService.
    destruct (updateAppointmentStatus_rows e db target "in_progress" no_update)
      as [hit ->].
    apply Forall2_map_if; intros r; repeat split.
Qed.

Lemma filter_map_if {A : Type} (p hit : A -> bool) (f : A -> A) (l : list A) :
  (forall x, p (f x) = false) ->
  filter p (map (fun x => if hit x then f x else x) l)
  = filter (fun x => negb (hit x)) (filter p l).
Proof.
  intros Hf. induction l as [|x rest IH]; [reflexivity|].
  simpl. destruct (hit x) eqn:Hhit.
  - rewrite Hf. destruct (p x); simpl; [rewrite Hhit; simpl|]; exact IH.
  - destruct (p x); simpl; [rewrite Hhit; simpl; f_equal|]; exact IH.
Qed.

Lemma filter_swap {A : Type} (p q : A -> bool) (l : list A) :
  filter p (filter q l) = filter q (filter p l).
Proof.
  induction l as [|x rest IH]; [reflexivity|].
  simpl. destruct (q x) eqn:Hq, (p x) eqn:Hp; simpl;
    rewrite ?Hq, ?Hp; try rewrite IH; reflexivity.
Qed.

Lemma cancelAppointment_waiting e db target shop :
  exists keep,
    Queue.waiting_at (snd (CustomerDashboard.cancelAppointment e db target)) shop
    = filter keep (Queue.waiting_at db shop).
Proof.
  unfold Queue.waiting_at.
  destruct (cancelAppointment_rows e db target) as [hit ->].
  eexists. apply filter_map_if. intros r. apply andb_false_r.
Qed.

Lemma startService_waiting e db target shop :
  exists keep,
    Queue.waiting_at (snd (BarberDashboard.startService e db target)) shop
    = filter keep (Queue.waiting_at db shop).
Proof.
  unfold Queue.waiting_at, BarberDashboard.startService.
  destruct (updateAppointmentStatus_rows e db target "in_progress" no_update)
    as [hit ->].
  eexists. apply filter_map_if. intros r. apply andb_false_r.
Qed.

Lemma completeService_waiting e db target shop :
  exists keep,
    Queue.waiting_at (snd (BarberDashboard.completeService e db target)) shop
    = filter keep (Queue.waiting_at db shop).
Proof.
  unfold Queue.waiting_at, BarberDashboard.completeService.
  destruct (updateAppointmentStatus_rows e db target "completed" no_update)
    as [hit ->].
  eexists. apply filter_map_if. intros r. apply andb_false_r.
Qed.

Lemma deleteAppointment_waiting confirmed e db target shop :
  exists keep,
    Queue.waiting_at (snd (BarberDashboard.deleteAppointment confirmed e db target)) shop
    = filter keep (Queue.waiting_at db shop).
Proof.
  unfold Queue.waiting_at, BarberDashboard.deleteAppointment.
  destruct confirmed; simpl.
  - eexists. apply filter_swap.
  - exists (fun _ => true). symmetry. apply forallb_filter_id.
    apply forallb_forall. reflexivity.
Qed.

(** No transition adds to a waiting queue or reorders it: after a
    cancellation, a start, a completion or a delete, the waiting queue of
    every shop is the old one with some appointments taken out. *)
Theorem transitions_only_shrink_the_queue e db target shop :
  (exists keep,
     Queue.waiting_at (snd (CustomerDashboard.cancelAppointment e db target)) shop
     = filter keep (Queue.waiting_at db shop))
  /\ (exists keep,
        Queue.waiting_at (snd (BarberDashboard.startService e db target)) shop
        = filter keep (Queue.waiting_at db shop))
  /\ (exists keep,
        Queue.waiting_at (snd (BarberDashboard.completeService e db target)) shop
        = filter keep (Queue.waiting_at db shop))
  /\ (forall confirmed, exists keep,
        Queue.waiting_at (snd (BarberDashboard.deleteAppointment confirmed e db target)) shop
        = filter keep (Queue.waiting_at db shop)).
Proof.
  split; [apply cancelAppointment_waiting|].
  split; [apply startService_waiting|].
  split; [apply completeService_waiting|].
  intros confirmed. apply deleteAppointment_waiting.
Qed.

(** *** Positions along runs without interleaving *)

Lemma NoDup_map_filter {A B : Type} (g : A -> B) (keep : A -> bool) (l : list A) :
  NoDup (map g l) -> NoDup (map g (filter keep l)).
Proof.
  induction l as [|x rest IH]; intros H; [constructor|].
  simpl in H. inversion H as [|? ? Hx Hrest]; subst.
  simpl. destruct (keep x); [|apply IH; exact Hrest].
  simpl. constructor; [|apply IH; exact Hrest].
  intros Hin. apply Hx. apply in_map_iff in Hin. destruct Hin as [y [Hy Hin]].
  apply filter_In in Hin. apply in_map_iff. exists y. split; [exact Hy|exact (proj1 Hin)].
Qed.

Lemma NoDup_snoc_above (l : list Z) (x : Z) :
  NoDup l -> (forall y, In y l -> y < x) -> NoDup (l ++ [x]).
Proof.
  intros Hl Hx. apply (Permutation_NoDup (Permutation_cons_append l x)).
  constructor; [|exact Hl].
  intros Hin. specialize (Hx x Hin). lia.
Qed.

(** The position a booking is given, when the caller can read the waiting
    appointments of the shop, is above each of theirs. *)
Lemma nextPosition_above db uid shop r :
  (forall x, In x (appointments db) -> shop_id x = shop -> status x = "waiting" ->
             select_using db uid x = true) ->
  In r (appointments db) -> shop_id r = shop -> status r = "waiting" ->
  queue_position r < CustomerDashboard.nextPosition (select_top_waiting db uid shop).
Proof.
  intros Hvis Hr Hshop Hst.
  destruct (select_top_waiting db uid shop) as [m|] eqn:Htop; simpl.
  - pose proof (select_top_waiting_bound db uid shop m r Htop Hr
                  (Hvis r Hr Hshop Hst) Hshop Hst). lia.
  - exfalso.
    exact (select_top_waiting_null db uid shop r Htop Hr (Hvis r Hr Hshop Hst) Hshop Hst).
Qed.

Lemma createAppointment_waiting_positions e st db sel shop :
  CustomerDashboard.selectedShop st = Some sel ->
  (forall r, In r (appointments db) -> shop_id r = shop_pk sel -> status r = "waiting" ->
             select_using db (user_id e) r = true) ->
  NoDup (Queue.waiting_positions db shop) ->
  NoDup (Queue.waiting_positions (snd (CustomerDashboard.createAppointment e st db)) shop).
Proof.
  intros Hsel Hvis Hnd.
  destruct (CustomerDashboard.createAppointment e st db) as [[o st'] db'] eqn:Hrun.
  destruct o.
  - destruct (createAppointment_returned e st db st' db' Hrun) as [sel' [Hs [_ Hrows]]].
    rewrite Hsel in Hs. injection Hs as <-.
    unfold Queue.waiting_positions, Queue.waiting_at in *. simpl snd.
    rewrite Hrows, filter_app, map_app. simpl filter.
    change (shop_id (new_row _ _ _)) with (shop_pk sel).
    change (status (new_row _ _ _)) with "waiting".
    rewrite andb_true_r.
    destruct (shop_pk sel =? shop) eqn:Hshop; simpl map.
    + apply String.eqb_eq in Hshop. apply NoDup_snoc_above; [exact Hnd|].
      intros y Hy. apply in_map_iff in Hy. destruct Hy as [r [<- Hr]].
      apply filter_In in Hr. destruct Hr as [Hr Hf].
      apply andb_prop in Hf. destruct Hf as [Hrs Hrst].
      apply String.eqb_eq in Hrs, Hrst.
      change (queue_position (new_row _ _ _))
        with (CustomerDashboard.nextPosition
                (select_top_waiting db (user_id e) (shop_pk sel))).
      apply nextPosition_above; try assumption. congruence.
    + rewrite app_nil_r. exact Hnd.
  - pose proof (createAppointment_otherwise e st db) as Hsame.
    rewrite Hrun in Hsame. simpl in Hsame. rewrite Hsame; [exact Hnd|discriminate].
  - pose proof (createAppointment_otherwise e st db) as Hsame.
    rewrite Hrun in Hsame. simpl in Hsame. rewrite Hsame; [exact Hnd|discriminate].
Qed.

(** When the waiting appointments of a shop hold pairwise distinct
    positions, they still do after any one handler has run alone: after a
    booking by a caller who can read the waiting appointments of the shop
    booked at, and after any cancellation, start, completion or delete. *)
Theorem waiting_positions_stay_distinct e db shop :
  NoDup (Queue.waiting_positions db shop) ->
  (forall st sel,
      CustomerDashboard.selectedShop st = Some sel ->
      (forall r, In r (appointments db) -> shop_id r = shop_pk sel ->
                 status r = "waiting" -> select_using db (user_id e) r = true) ->
      NoDup (Queue.waiting_positions
               (snd (CustomerDashboard.createAppointment e st db)) shop))
  /\ (forall target,
        NoDup (Queue.waiting_positions
                 (snd (CustomerDashboard.cancelAppointment e db target)) shop))
  /\ (forall target,
        NoDup (Queue.waiting_positions
                 (snd (BarberDashboard.startService e db target)) shop))
  /\ (forall target,
        NoDup (Queue.waiting_positions
                 (snd (BarberDashboard.completeService e db target)) shop))
  /\ (forall confirmed target,
        NoDup (Queue.waiting_positions
                 (snd (BarberDashboard.deleteAppointment confirmed e db target)) shop)).
Proof.
  intros Hnd. split; [|split; [|split; [|split]]].
  - intros st sel Hsel Hvis.
    exact (createAppointment_waiting_positions e st db sel shop Hsel Hvis Hnd).
  - intros target. unfold Queue.waiting_positions.
    destruct (cancelAppointment_waiting e db target shop) as [keep ->].
    apply NoDup_map_filter. exact Hnd.
  - intros target. unfold Queue.waiting_positions.
    destruct (startService_waiting e db target shop) as [keep ->].
    apply NoDup_map_filter. exact Hnd.
  - intros target. unfold Queue.waiting_positions.
    destruct (completeService_waiting e db target shop) as [keep ->].
    apply NoDup_map_filter. exact Hnd.
  - intros confirmed target. unfold Queue.waiting_positions.
    destruct (deleteAppointment_waiting confirmed e db target shop) as [keep ->].
    apply NoDup_map_filter. exact Hnd.
Qed.

Lemma waiting_positions_stay_distinct_witness :
  NoDup (Queue.waiting_positions
           (snd (CustomerDashboard.createAppointment (Town.booking "alice" 200 "a-2")
                   (Town.form "shave" "") Town.alice_waiting)) "shop-1")
  /\ NoDup (Queue.waiting_positions
              (snd (BarberDashboard.startService (Town.booking "carol" 200 "")
                      Town.alice_waiting "a-1")) "shop-1").
Proof.
  assert (Hnd : NoDup (Queue.waiting_positions Town.alice_waiting "shop-1")).
  { change (NoDup [1]). constructor; [intros []|constructor]. }
  split.
  - apply (proj1 (waiting_positions_stay_distinct (Town.booking "alice" 200 "a-2")
                    Town.alice_waiting "shop-1" Hnd)
             (Town.form "shave" "") Town.main_street).
    + reflexivity.
    + intros r [<-|[]] _ _. reflexivity.
  - apply (proj1 (proj2 (proj2 (waiting_positions_stay_distinct
                                  (Town.booking "carol" 200 "")
                                  Town.alice_waiting "shop-1" Hnd)))).
Defined.

Lemma createAppointment_positions e st db :
  Forall (fun r => 1 <= queue_position r) (appointments db) ->
  Forall (fun r => 1 <= queue_position r)
    (appointments (snd (CustomerDashboard.createAppointment e st db))).
Proof.
  intros Hpos.
  destruct (CustomerDashboard.createAppointment e st db) as [[o st'] db'] eqn:Hrun.
  destruct o.
  - destruct (createAppointment_returned e st db st' db' Hrun) as [shop [_ [_ Hrows]]].
    simpl snd. rewrite Hrows. apply Forall_app. split; [exact Hpos|].
    constructor; [|constructor]. simpl.
    destruct (select_top_waiting db (user_id e) (shop_pk shop)) as [m|] eqn:Htop;
      simpl; [|lia].
    destruct (select_top_waiting_attained db _ _ m Htop) as [r [Hr [_ [_ [_ Hq]]]]].
    rewrite Forall_forall in Hpos. specialize (Hpos r Hr). lia.
  - pose proof (createAppointment_otherwise e st db) as Hsame.
    rewrite Hrun in Hsame. simpl in Hsame. rewrite Hsame; [exact Hpos|discriminate].
  - pose proof (createAppointment_otherwise e st db) as Hsame.
    rewrite Hrun in Hsame. simpl in Hsame. rewrite Hsame; [exact Hpos|discriminate].
Qed.

Lemma Forall_map_if {A : Type} (P : A -> Prop) (hit : A -> bool) (f : A -> A)
    (l : list A) :
  (forall x, P x -> P (f x)) -> Forall P l ->
  Forall P (map (fun x => if hit x then f x else x) l).
Proof.
  intros Hf H. induction H as [|x rest Hx _ IH]; simpl; constructor; [|exact IH].
  destruct (hit x); [apply Hf|]; exact Hx.
Qed.

(** Positions start at 1 and stay there: when no stored position is below
    1, none is after a booking (the new one included), a cancellation, a
    start, a completion or a delete. *)
Theorem positions_stay_at_least_one e db :
  Forall (fun r => 1 <= queue_position r) (appointments db) ->
  (forall st,
      Forall (fun r => 1 <= queue_position r)
        (appointments (snd (CustomerDashboard.createAppointment e st db))))
  /\ (forall target,
        Forall (fun r => 1 <= queue_position r)
          (appointments (snd (CustomerDashboard.cancelAppointment e db target))))
  /\ (forall target,
        Forall (fun r => 1 <= queue_position r)
          (appointments (snd (BarberDashboard.startService e db target))))
  /\ (forall target,
        Forall (fun r => 1 <= queue_position r)
          (appointments (snd (BarberDashboard.completeService e db target))))
  /\ (forall confirmed target,
        Forall (fun r => 1 <= queue_position r)
          (appointments (snd (BarberDashboard.deleteAppointment confirmed e db target)))).
Proof.
  intros Hpos. split; [|split; [|split; [|split]]].
  - intros st. apply createAppointment_positions. exact Hpos.
  - intros target. destruct (cancelAppointment_rows e db target) as [hit ->].
    apply Forall_map_if; [intros r Hr; exact Hr|exact Hpos].
  - intros target. unfold BarberDashboard.startService.
    destruct (updateAppointmentStatus_rows e db target "in_progress" no_update)
      as [hit ->].
    apply Forall_map_if; [intros r Hr; exact Hr|exact Hpos].
  - intros target. unfold BarberDashboard.completeService.
    destruct (updateAppointmentStatus_rows e db target "completed" no_update)
      as [hit ->].
    apply Forall_map_if; [intros r Hr; exact Hr|exact Hpos].
  - intros confirmed target. unfold BarberDashboard.deleteAppointment.
    destruct confirmed; simpl; [|exact Hpos].
    apply Forall_forall. intros r Hr. apply filter_In in Hr.
    rewrite Forall_forall in Hpos. exact (Hpos r (proj1 Hr)).
Qed.

Lemma positions_stay_at_least_one_witness :
  Forall (fun r => 1 <= queue_position r)
    (appointments (snd (CustomerDashboard.createAppointment
                          (Town.booking "bob" 150 "b-1") (Town.form "shave" "")
                          Town.alice_waiting))).
Proof.
  assert (Hpos : Forall (fun r => 1 <= queue_position r)
                   (appointments Town.alice_waiting)).
  { constructor; [simpl; lia|constructor]. }
  apply (proj1 (positions_stay_at_least_one (Town.booking "bob" 150 "b-1")
                  Town.alice_waiting Hpos)).
Defined.

(** *** A status the CHECK does not admit *)

Lemma updateData_status e st u :
  set_status (BarberDashboard.updateData e st u) = Some (or_keep (set_status u) st).
Proof.
  unfold BarberDashboard.updateData.
  destruct (st =? "in_progress"); [reflexivity|].
  destruct (st =? "completed"); reflexivity.
Qed.

Lemma update_violation_bad_status db uid r' :
  status_check (status r') = false -> update_violation db uid r' <> None.
Proof.
  intros Hst. unfold update_violation.
  destruct (negb (int4_ok _)); [discriminate|].
  destruct (negb (update_check db uid r' && select_using db uid r')); [discriminate|].
  rewrite Hst. discriminate.
Qed.

(** [updateAppointmentStatus] called with a status that is none of the
    four never changes the table: the CHECK refuses the update when it
    acts on a row (the handler shows its alert), and otherwise there is
    nothing to change. *)
Theorem status_outside_the_check_is_never_stored e db target st updates :
  status_check st = false ->
  set_status updates = None ->
  snd (BarberDashboard.updateAppointmentStatus e db target st updates) = db.
Proof.
  intros Hst Hnone. unfold BarberDashboard.updateAppointmentStatus.
  destruct (update db (user_id e) (BarberDashboard.updateData e st updates) target)
    as [db'|err] eqn:Hup; [|reflexivity].
  simpl. unfold update in Hup.
  destruct (filter (update_target db (user_id e) target) (appointments db))
    as [|x rest] eqn:Hfilter.
  - simpl in Hup. injection Hup as <-.
    rewrite map_untouched; [apply with_appointments_same|].
    intros r Hr. destruct (update_target db (user_id e) target r) eqn:Hhit;
      [|reflexivity].
    assert (In r []) as []. rewrite <- Hfilter. apply filter_In. split; assumption.
  - exfalso. simpl in Hup.
    destruct (update_violation db (user_id e)
                (apply_update (BarberDashboard.updateData e st updates) x)) eqn:Hv;
      [discriminate|].
    apply (update_violation_bad_status db (user_id e) _) in Hv; [exact Hv|].
    unfold apply_update. simpl status.
    rewrite updateData_status, Hnone. exact Hst.
Qed.

Lemma status_outside_the_check_is_never_stored_witness :
  snd (BarberDashboard.updateAppointmentStatus (Town.booking "carol" 200 "")
         Town.alice_waiting "a-1" "done" no_update) = Town.alice_waiting.
Proof.
  apply (status_outside_the_check_is_never_stored (Town.booking "carol" 200 "")
           Town.alice_waiting "a-1" "done" no_update).
  - reflexivity.
  - reflexivity.
Defined.

(** *** From the waiting queue to completed *)

Lemma update_keeps_other_tables db uid u target db' :
  update db uid u target = data db' ->
  profiles db' = profiles db /\ shops db' = shops db
  /\ shop_barbers db' = shop_barbers db.
Proof.
  unfold update. destruct (first_violation db uid _); [discriminate|].
  intros H. injection H as <-. repeat split.
Qed.

(** A barber of the shop starts an appointment and a barber of the shop
    (the same or another) then completes it: both handlers run to their
    end, and the stored row ends [completed], with the start time of the
    first call, the completion time of the second, the starting barber as
    its barber, and every other column as before. *)
Theorem start_then_complete e1 e2 db k r :
  Integrity.consistent db = true ->
  nth_error (appointments db) k = Some r ->
  barber_of_shop db (user_id e1) (shop_id r) = true ->
  barber_of_shop db (user_id e2) (shop_id r) = true ->
  exists db1 db2 r2,
    BarberDashboard.startService e1 db (id r) = (returned, db1)
    /\ BarberDashboard.completeService e2 db1 (id r) = (returned, db2)
    /\ nth_error (appointments db2) k = Some r2
    /\ status r2 = "completed"
    /\ started_at r2 = Some (clock e1) /\ completed_at r2 = Some (clock e2)
    /\ barber_id r2 = Some (user_id e1)
    /\ id r2 = id r /\ shop_id r2 = shop_id r /\ customer_id r2 = customer_id r
    /\ queue_position r2 = queue_position r /\ service_type r2 = service_type r
    /\ notes r2 = notes r /\ created_at r2 = created_at r.
Proof.
  intros Hc Hk Hb1 Hb2.
  destruct (start_by_barber e1 db k r Hc Hk Hb1) as [db1 [Hrun1 Hrow1]].
  set (r1 := apply_update (BarberDashboard.updateData e1 "in_progress" no_update) r) in *.
  assert (Hc1 : Integrity.consistent db1 = true).
  { pose proof (updateAppointmentStatus_consistent e1 db (id r) "in_progress" no_update Hc)
      as H.
    unfold BarberDashboard.startService in Hrun1. rewrite Hrun1 in H. exact H. }
  assert (Hsb : shop_barbers db1 = shop_barbers db).
  { unfold BarberDashboard.startService, BarberDashboard.updateAppointmentStatus in Hrun1.
    destruct (update db (user_id e1) _ (id r)) as [d|err] eqn:Hup; [|discriminate].
    injection Hrun1 as <-. exact (proj2 (proj2 (update_keeps_other_tables _ _ _ _ _ Hup))). }
  assert (Hb2' : barber_of_shop db1 (user_id e2) (shop_id r1) = true).
  { unfold barber_of_shop. rewrite Hsb. exact Hb2. }
  destruct (complete_by_barber e2 db1 k r1 Hc1 Hrow1 Hb2') as [db2 [Hrun2 Hrow2]].
  exists db1, db2. eexists.
  split; [exact Hrun1|]. split; [exact Hrun2|]. split; [exact Hrow2|].
  repeat split.
Qed.

Lemma start_then_complete_witness :
  exists db1 db2 r2,
    BarberDashboard.startService (Town.booking "carol" 200 "") Town.alice_waiting "a-1"
    = (returned, db1)
    /\ BarberDashboard.completeService (Town.booking "carol" 300 "") db1 "a-1"
       = (returned, db2)
    /\ nth_error (appointments db2) 0 = Some r2
    /\ status r2 = "completed"
    /\ started_at r2 = Some 200 /\ completed_at r2 = Some 300
    /\ barber_id r2 = Some "carol"
    /\ id r2 = "a-1" /\ shop_id r2 = "shop-1" /\ customer_id r2 = "alice"
    /\ queue_position r2 = 1 /\ service_type r2 = "haircut"
    /\ notes r2 = None /\ created_at r2 = 100.
Proof.
  apply (start_then_complete (Town.booking "carol" 200 "") (Town.booking "carol" 300 "")
           Town.alice_waiting 0%nat (Town.alice_row "waiting" None None None)).
  - reflexivity.
  - reflexivity.
  - reflexivity.
  - reflexivity.
Defined.

(* ------------------------------------------------------------------ *)
(** *** The lists of the dashboards *)
(* ------------------------------------------------------------------ *)

Section Arrange.
Variables (A : Type) (leb : A -> A -> bool) (before : A -> A -> Prop).
Hypothesis leb_before : forall a b, leb a b = true -> before a b.
Hypothesis leb_total : forall a b, leb a b = false -> before b a.
Hypothesis before_trans : forall a b c, before a b -> before b c -> before a c.

Lemma place_permutation x l : Permutation (x :: l) (place leb x l).
Proof.
  induction l as [|y rest IH]; simpl; [apply Permutation_refl|].
  destruct (leb x y); [apply Permutation_refl|].
  apply (perm_trans (perm_swap y x rest)). apply perm_skip. exact IH.
Qed.

Lemma place_sorted x l :
  StronglySorted before l -> StronglySorted before (place leb x l).
Proof.
  induction 1 as [|y rest Hsorted IH Hall]; simpl.
  - constructor; constructor.
  - destruct (leb x y) eqn:Hxy.
    + constructor; [constructor; assumption|].
      constructor; [apply leb_before; exact Hxy|].
      apply Forall_forall. intros z Hz. rewrite Forall_forall in Hall.
      apply (before_trans x y z); [apply leb_before; exact Hxy|apply Hall; exact Hz].
    + constructor; [exact IH|].
      apply (Permutation_Forall (place_permutation x rest)).
      constructor; [apply leb_total; exact Hxy|exact Hall].
Qed.

Lemma arrange_is_an_answer l : ordered_answer before l (arrange leb l).
Proof.
  unfold ordered_answer. induction l as [|x rest [Hperm Hsorted]]; simpl.
  - split; constructor.
  - split.
    + apply (perm_trans (perm_skip x Hperm)). apply place_permutation.
    + apply place_sorted. exact Hsorted.
Qed.
End Arrange.

Lemma arranged_by_created_at e db :
  CustomerDashboard.loadAppointments_answer e db (CustomerDashboard.loadAppointments e db).
Proof.
  apply arrange_is_an_answer; unfold CustomerDashboard.newer_or_sameb,
    CustomerDashboard.newer_or_same.
  - intros a b H. apply Z.leb_le. exact H.
  - intros a b H. apply Z.leb_gt in H. lia.
  - intros a b c Hab Hbc. lia.
Qed.

Lemma active_spec s : active s = true <-> s = "waiting" \/ s = "in_progress".
Proof.
  unfold active. rewrite orb_true_iff, !String.eqb_eq. reflexivity.
Qed.

Lemma own_rows_spec e db r :
  In r (CustomerDashboard.loadAppointments_rows e db)
  <-> In r (appointments db) /\ customer_id r = user_id e
      /\ (status r = "waiting" \/ status r = "in_progress").
Proof.
  unfold CustomerDashboard.loadAppointments_rows. rewrite filter_In. split.
  - intros [Hr Hf]. apply andb_prop in Hf. destruct Hf as [Hf Hact].
    apply andb_prop in Hf. destruct Hf as [_ Hown].
    split; [exact Hr|]. split; [apply String.eqb_eq; exact Hown|].
    apply active_spec. exact Hact.
  - intros [Hr [Hown Hact]]. split; [exact Hr|].
    apply active_spec in Hact. rewrite Hact, andb_true_r.
    unfold select_using. rewrite Hown, String.eqb_refl. reflexivity.
Qed.

(** "Your Appointments": the list of the customer dashboard always has an
    answer, and every answer holds exactly the caller's own appointments
    that are waiting or in progress, newest first; no appointment of
    another customer and no completed or cancelled one is ever listed. *)
Theorem customer_list_is_own_and_active e db :
  CustomerDashboard.loadAppointments_answer e db (CustomerDashboard.loadAppointments e db)
  /\ forall answer,
       CustomerDashboard.loadAppointments_answer e db answer ->
       (forall r, In r answer
                  <-> In r (appointments db) /\ customer_id r = user_id e
                      /\ (status r = "waiting" \/ status r = "in_progress"))
       /\ StronglySorted (fun a b => created_at b <= created_at a) answer.
Proof.
  split; [apply arranged_by_created_at|].
  intros answer [Hperm Hsorted]. split; [|exact Hsorted].
  intros r. rewrite <- own_rows_spec. split.
  - apply Permutation_in. apply Permutation_sym. exact Hperm.
  - apply Permutation_in. exact Hperm.
Qed.

Lemma customer_list_is_own_and_active_witness :
  let db := Town.after_create (Town.booking "alice" 200 "a-2") (Town.form "shave" "")
              Town.alice_waiting in
  (forall r, In r (CustomerDashboard.loadAppointments (Town.booking "alice" 500 "") db)
             <-> In r (appointments db) /\ customer_id r = "alice"
                 /\ (status r = "waiting" \/ status r = "in_progress"))
  /\ StronglySorted (fun a b => created_at b <= created_at a)
       (CustomerDashboard.loadAppointments (Town.booking "alice" 500 "") db).
Proof.
  apply (proj2 (customer_list_is_own_and_active (Town.booking "alice" 500 "")
                  (Town.after_create (Town.booking "alice" 200 "a-2")
                     (Town.form "shave" "") Town.alice_waiting))).
  split.
  - vm_compute. apply perm_swap.
  - vm_compute. repeat constructor; discriminate.
Defined.

Lemma arranged_by_position e db shop :
  BarberDashboard.loadAppointments_answer e db shop
    (arrange BarberDashboard.ahead_or_levelb
       (BarberDashboard.loadAppointments_rows e db shop)).
Proof.
  apply arrange_is_an_answer; unfold BarberDashboard.ahead_or_levelb,
    BarberDashboard.ahead_or_level.
  - intros a b H. apply Z.leb_le. exact H.
  - intros a b H. apply Z.leb_gt in H. lia.
  - intros a b c Hab Hbc. lia.
Qed.

Lemma filter_permutation {A : Type} (p : A -> bool) (l l' : list A) :
  Permutation l l' -> Permutation (filter p l) (filter p l').
Proof.
  induction 1 as [|x l l' _ IH|x y l|l l' l'' _ IH1 _ IH2]; simpl.
  - constructor.
  - destruct (p x); [apply perm_skip|]; exact IH.
  - destruct (p x), (p y); try apply Permutation_refl. apply perm_swap.
  - exact (perm_trans IH1 IH2).
Qed.

Lemma filter_sorted {A : Type} (R : A -> A -> Prop) (p : A -> bool) (l : list A) :
  StronglySorted R l -> StronglySorted R (filter p l).
Proof.
  induction 1 as [|x rest _ IH Hall]; simpl; [constructor|].
  destruct (p x); [|exact IH].
  constructor; [exact IH|].
  apply Forall_forall. intros y Hy. apply filter_In in Hy.
  rewrite Forall_forall in Hall. exact (Hall y (proj1 Hy)).
Qed.

Lemma split_by_status (l : list BarberDashboard.AppointmentWithCustomer) :
  (forall a, In a l -> active (status (BarberDashboard.appointment a)) = true) ->
  Permutation l (BarberDashboard.waitingAppointments l
                 ++ BarberDashboard.inProgressAppointments l).
Proof.
  unfold BarberDashboard.waitingAppointments, BarberDashboard.inProgressAppointments.
  induction l as [|a rest IH]; intros Hact; [constructor|].
  assert (Hrest : forall x, In x rest ->
                            active (status (BarberDashboard.appointment x)) = true)
    by (intros x Hx; apply Hact; right; exact Hx).
  specialize (IH Hrest).
  pose proof (Hact a (or_introl eq_refl)) as Ha. apply active_spec in Ha.
  simpl. destruct Ha as [-> | ->]; simpl.
  - apply perm_skip. exact IH.
  - apply Permutation_cons_app. exact IH.
Qed.

Lemma barber_rows_spec e db shop a :
  In a (BarberDashboard.loadAppointments_rows e db shop)
  <-> exists r,
        a = BarberDashboard.with_customer db r /\ In r (appointments db)
        /\ select_using db (user_id e) r = true
        /\ shop_id r = shop_pk shop /\ active (status r) = true.
Proof.
  unfold BarberDashboard.loadAppointments_rows. rewrite in_map_iff. split.
  - intros [r [<- Hr]]. apply filter_In in Hr. destruct Hr as [Hr Hf].
    apply andb_prop in Hf. destruct Hf as [Hf Hact].
    apply andb_prop in Hf. destruct Hf as [Hsel Hshop].
    exists r. split; [reflexivity|]. split; [exact Hr|]. split; [exact Hsel|].
    split; [apply String.eqb_eq; exact Hshop|exact Hact].
  - intros [r [-> [Hr [Hsel [Hshop Hact]]]]]. exists r. split; [reflexivity|].
    apply filter_In. split; [exact Hr|].
    rewrite Hsel, Hshop, Hact, String.eqb_refl. reflexivity.
Qed.

Lemma waiting_rows_of_a_shop_barber e db shop :
  barber_of_shop db (user_id e) (shop_pk shop) = true ->
  BarberDashboard.waitingAppointments (BarberDashboard.loadAppointments_rows e db shop)
  = map (BarberDashboard.with_customer db) (Queue.waiting_at db (shop_pk shop)).
Proof.
  intros Hb.
  unfold BarberDashboard.waitingAppointments, BarberDashboard.loadAppointments_rows,
    Queue.waiting_at.
  induction (appointments db) as [|r rest IH]; [reflexivity|].
  simpl. destruct (shop_id r =? shop_pk shop) eqn:Hshop.
  - apply String.eqb_eq in Hshop.
    assert (Hsel : select_using db (user_id e) r = true)
      by (unfold select_using; rewrite Hshop, Hb; apply orb_true_r).
    rewrite Hsel. unfold active.
    destruct (status r =? "waiting") eqn:Hw; simpl.
    + rewrite Hw. simpl. f_equal. exact IH.
    + destruct (status r =? "in_progress"); simpl; [rewrite Hw|]; exact IH.
  - rewrite andb_false_r. simpl. exact IH.
Qed.

(** "Waiting Queue": for a barber of the selected shop, whatever the
    server answers, the panel shows the waiting appointments of the shop,
    all of them and nothing else, in the order of their positions; and the
    two panels together show every loaded appointment exactly once. *)
Theorem barber_panels_show_the_queue e db shop answer :
  barber_of_shop db (user_id e) (shop_pk shop) = true ->
  BarberDashboard.loadAppointments_answer e db shop answer ->
  Permutation (map (BarberDashboard.with_customer db) (Queue.waiting_at db (shop_pk shop)))
              (BarberDashboard.waitingAppointments answer)
  /\ StronglySorted BarberDashboard.ahead_or_level (BarberDashboard.waitingAppointments answer)
  /\ Permutation answer (BarberDashboard.waitingAppointments answer
                         ++ BarberDashboard.inProgressAppointments answer).
Proof.
  intros Hb [Hperm Hsorted]. split; [|split].
  - rewrite <- (waiting_rows_of_a_shop_barber e db shop Hb).
    apply filter_permutation. exact Hperm.
  - apply filter_sorted. exact Hsorted.
  - apply split_by_status. intros a Ha.
    apply (Permutation_in _ (Permutation_sym Hperm)) in Ha.
    apply barber_rows_spec in Ha. destruct Ha as [r [-> [_ [_ [_ Hact]]]]]. exact Hact.
Qed.

Lemma barber_panels_show_the_queue_witness :
  let answer :=
    [BarberDashboard.with_customer Town.alice_then_bob
       (Town.alice_row "waiting" None None None);
     BarberDashboard.with_customer Town.alice_then_bob (Town.bob_row 2)] in
  Permutation (map (BarberDashboard.with_customer Town.alice_then_bob)
                 (Queue.waiting_at Town.alice_then_bob "shop-1"))
              (BarberDashboard.waitingAppointments answer)
  /\ StronglySorted BarberDashboard.ahead_or_level (BarberDashboard.waitingAppointments answer)
  /\ Permutation answer (BarberDashboard.waitingAppointments answer
                         ++ BarberDashboard.inProgressAppointments answer).
Proof.
  apply (barber_panels_show_the_queue (Town.booking "carol" 400 "")
           Town.alice_then_bob Town.main_street).
  - reflexivity.
  - split.
    + vm_compute. apply Permutation_refl.
    + vm_compute. repeat constructor; discriminate.
Defined.

Lemma existsb_find {A : Type} (f : A -> bool) (l : list A) :
  existsb f l = true -> exists x, find f l = Some x.
Proof.
  induction l as [|y rest IH]; simpl; [discriminate|].
  destruct (f y); [intros _; exists y; reflexivity|exact IH].
Qed.

(** Every card of the barber dashboard can show its customer: with the
    references of the migration in place, each loaded appointment carries
    the stored profile its [customer_id] names, never [null]. *)
Theorem barber_cards_carry_the_customer e db shop answer :
  Integrity.consistent db = true ->
  BarberDashboard.loadAppointments_answer e db shop answer ->
  forall a, In a answer ->
    exists p,
      BarberDashboard.customer a = Some p /\ In p (profiles db)
      /\ profile_id p = customer_id (BarberDashboard.appointment a).
Proof.
  intros Hc [Hperm _] a Ha.
  apply (Permutation_in _ (Permutation_sym Hperm)) in Ha.
  apply barber_rows_spec in Ha. destruct Ha as [r [-> [Hr _]]].
  destruct (consistent_parts db Hc) as [_ [Hrows _]].
  destruct (row_ok_parts db r (Hrows r Hr)) as [_ [_ [_ Hcust]]].
  unfold profile_exists in Hcust. apply existsb_find in Hcust.
  destruct Hcust as [p Hp]. exists p. split; [exact Hp|].
  apply find_some in Hp. destruct Hp as [Hin Heq].
  split; [exact Hin|]. apply String.eqb_eq. exact Heq.
Qed.

Lemma barber_cards_carry_the_customer_witness :
  exists p,
    BarberDashboard.customer
      (BarberDashboard.with_customer Town.alice_then_bob (Town.bob_row 2)) = Some p
    /\ In p (profiles Town.alice_then_bob)
    /\ profile_id p
       = customer_id (BarberDashboard.appointment
                        (BarberDashboard.with_customer Town.alice_then_bob
                           (Town.bob_row 2))).
Proof.
  apply (barber_cards_carry_the_customer (Town.booking "carol" 400 "")
           Town.alice_then_bob Town.main_street
           [BarberDashboard.with_customer Town.alice_then_bob
              (Town.alice_row "waiting" None None None);
            BarberDashboard.with_customer Town.alice_then_bob (Town.bob_row 2)]).
  - reflexivity.
  - split.
    + vm_compute. apply Permutation_refl.
    + vm_compute. repeat constructor; discriminate.
  - right. left. reflexivity.
Defined.

Lemma createAppointment_other_tables e st db :
  shop_barbers (snd (CustomerDashboard.createAppointment e st db)) = shop_barbers db
  /\ profiles (snd (CustomerDashboard.createAppointment e st db)) = profiles db.
Proof.
  unfold CustomerDashboard.createAppointment, CustomerDashboard.run_insert.
  destruct (CustomerDashboard.selectedShop st) as [shop|]; [|split; reflexivity].
  destruct (CustomerDashboard.serviceType st =? ""); [split; reflexivity|].
  destruct (insert _ _ _ _ _) as [db'|err] eqn:Hins; [|split; reflexivity].
  apply insert_data in Hins. destruct Hins as [-> _]. split; reflexivity.
Qed.

(** A booking that runs to its end shows up at once: the new appointment
    is in every answer to the customer's own list, and in the waiting
    panel of every barber of the shop, whatever the server answers. *)
Theorem new_booking_is_listed e st db st' db' shop :
  CustomerDashboard.selectedShop st = Some shop ->
  CustomerDashboard.createAppointment e st db = (returned, st', db') ->
  exists r,
    appointments db' = (appointments db ++ [r])%list
    /\ (forall answer,
          CustomerDashboard.loadAppointments_answer e db' answer -> In r answer)
    /\ (forall eb answer,
          barber_of_shop db (user_id eb) (shop_pk shop) = true ->
          BarberDashboard.loadAppointments_answer eb db' shop answer ->
          In (BarberDashboard.with_customer db' r)
             (BarberDashboard.waitingAppointments answer)).
Proof.
  intros Hshop Hrun.
  destruct (createAppointment_returned e st db st' db' Hrun) as [shop' [Hs [_ Hrows]]].
  rewrite Hshop in Hs. injection Hs as <-.
  pose proof (createAppointment_other_tables e st db) as [Hsb _].
  rewrite Hrun in Hsb. simpl in Hsb.
  eexists. split; [exact Hrows|]. split.
  - intros answer [Hperm _]. apply (Permutation_in _ Hperm).
    apply own_rows_spec. split; [rewrite Hrows; apply in_or_app; right; left; reflexivity|].
    split; [reflexivity|left; reflexivity].
  - intros eb answer Hb [Hperm _].
    unfold BarberDashboard.waitingAppointments. apply filter_In. split; [|reflexivity].
    apply (Permutation_in _ Hperm). apply barber_rows_spec.
    eexists. split; [reflexivity|].
    split; [rewrite Hrows; apply in_or_app; right; left; reflexivity|].
    split; [|split; reflexivity].
    unfold select_using, barber_of_shop. rewrite Hsb.
    unfold barber_of_shop in Hb. simpl shop_id. rewrite Hb. apply orb_true_r.
Qed.

Lemma new_booking_is_listed_witness :
  exists r,
    appointments Town.alice_waiting = (appointments Town.empty_queue ++ [r])%list
    /\ (forall answer,
          CustomerDashboard.loadAppointments_answer (Town.booking "alice" 100 "a-1")
            Town.alice_waiting answer -> In r answer)
    /\ (forall eb answer,
          barber_of_shop Town.empty_queue (user_id eb) (shop_pk Town.main_street) = true ->
          BarberDashboard.loadAppointments_answer eb Town.alice_waiting
            Town.main_street answer ->
          In (BarberDashboard.with_customer Town.alice_waiting r)
             (BarberDashboard.waitingAppointments answer)).
Proof.
  apply (new_booking_is_listed (Town.booking "alice" 100 "a-1") (Town.form "haircut" "")
           Town.empty_queue CustomerDashboard.cleared Town.alice_waiting Town.main_street).
  - reflexivity.
  - reflexivity.
Defined.

(** With a primary key, the status stored under an id is the status of
    every row with that id. *)
Lemma one_status_per_id db r x :
  Integrity.consistent db = true ->
  In r (appointments db) -> In x (appointments db) -> id x = id r ->
  status x = status r.
Proof.
  intros Hc Hr Hx Hid. destruct (consistent_parts db Hc) as [Hnd _].
  rewrite (same_id_same_row (appointments db) x r Hnd Hx Hr Hid). reflexivity.
Qed.

Lemma startService_other_tables e db target :
  shop_barbers (snd (BarberDashboard.startService e db target)) = shop_barbers db.
Proof.
  unfold BarberDashboard.startService, BarberDashboard.updateAppointmentStatus.
  destruct (update _ _ _ _) as [db'|err] eqn:Hup; [|reflexivity].
  exact (proj2 (proj2 (update_keeps_other_tables _ _ _ _ _ Hup))).
Qed.

(** "Start Service" on a card of the waiting panel, pressed by a barber of
    the selected shop, runs to its end; whatever the reload is answered
    with, the appointment is then in the in-progress panel and no longer
    in the waiting panel. *)
Theorem started_card_moves_to_in_progress e db shop answer a :
  Integrity.consistent db = true ->
  barber_of_shop db (user_id e) (shop_pk shop) = true ->
  BarberDashboard.loadAppointments_answer e db shop answer ->
  In a (BarberDashboard.waitingAppointments answer) ->
  exists db',
    BarberDashboard.startService e db (id (BarberDashboard.appointment a)) = (returned, db')
    /\ forall answer',
         BarberDashboard.loadAppointments_answer e db' shop answer' ->
         (exists a',
            In a' (BarberDashboard.inProgressAppointments answer')
            /\ id (BarberDashboard.appointment a') = id (BarberDashboard.appointment a))
         /\ (forall a',
               In a' (BarberDashboard.waitingAppointments answer') ->
               id (BarberDashboard.appointment a') <> id (BarberDashboard.appointment a)).
Proof.
  intros Hc Hb [Hperm _] Ha.
  apply filter_In in Ha. destruct Ha as [Ha _].
  apply (Permutation_in _ (Permutation_sym Hperm)) in Ha.
  apply barber_rows_spec in Ha. destruct Ha as [r [-> [Hr [_ [Hshop _]]]]].
  simpl BarberDashboard.appointment.
  destruct (In_nth_error _ _ Hr) as [k Hk].
  assert (Hbr : barber_of_shop db (user_id e) (shop_id r) = true)
    by (rewrite Hshop; exact Hb).
  destruct (start_by_barber e db k r Hc Hk Hbr) as [db' [Hrun Hrow]].
  set (r1 := apply_update (BarberDashboard.updateData e "in_progress" no_update) r) in *.
  exists db'. split; [exact Hrun|].
  assert (Hc' : Integrity.consistent db' = true).
  { pose proof (updateAppointmentStatus_consistent e db (id r) "in_progress" no_update Hc)
      as H.
    unfold BarberDashboard.startService in Hrun. rewrite Hrun in H. exact H. }
  assert (Hsb : shop_barbers db' = shop_barbers db).
  { pose proof (startService_other_tables e db (id r)) as H.
    rewrite Hrun in H. exact H. }
  assert (Hr1 : In r1 (appointments db')) by (eapply nth_error_In; exact Hrow).
  intros answer' [Hperm' _]. split.
  - exists (BarberDashboard.with_customer db' r1). split; [|reflexivity].
    unfold BarberDashboard.inProgressAppointments. apply filter_In.
    split; [|reflexivity].
    apply (Permutation_in _ Hperm'). apply barber_rows_spec.
    exists r1. split; [reflexivity|]. split; [exact Hr1|].
    split; [|split; [exact Hshop|reflexivity]].
    unfold select_using, barber_of_shop. rewrite Hsb.
    unfold barber_of_shop in Hbr. change (shop_id r1) with (shop_id r).
    rewrite Hbr. apply orb_true_r.
  - intros a' Ha' Hid. apply filter_In in Ha'. destruct Ha' as [Ha' Hw].
    apply (Permutation_in _ (Permutation_sym Hperm')) in Ha'.
    apply barber_rows_spec in Ha'. destruct Ha' as [x [-> [Hx _]]].
    simpl in Hw, Hid.
    rewrite (one_status_per_id db' r1 x Hc' Hr1 Hx Hid) in Hw. discriminate Hw.
Qed.

Lemma started_card_moves_to_in_progress_witness :
  exists db',
    BarberDashboard.startService (Town.booking "carol" 400 "") Town.alice_then_bob
      (id (BarberDashboard.appointment
             (BarberDashboard.with_customer Town.alice_then_bob (Town.bob_row 2))))
    = (returned, db')
    /\ forall answer',
         BarberDashboard.loadAppointments_answer (Town.booking "carol" 400 "") db'
           Town.main_street answer' ->
         (exists a',
            In a' (BarberDashboard.inProgressAppointments answer')
            /\ id (BarberDashboard.appointment a') = "b-1")
         /\ (forall a',
               In a' (BarberDashboard.waitingAppointments answer') ->
               id (BarberDashboard.appointment a') <> "b-1").
Proof.
  apply (started_card_moves_to_in_progress (Town.booking "carol" 400 "")
           Town.alice_then_bob Town.main_street
           [BarberDashboard.with_customer Town.alice_then_bob
              (Town.alice_row "waiting" None None None);
            BarberDashboard.with_customer Town.alice_then_bob (Town.bob_row 2)]).
  - reflexivity.
  - reflexivity.
  - split.
    + vm_compute. apply Permutation_refl.
    + vm_compute. repeat constructor; discriminate.
  - right. left. reflexivity.
Defined.

Lemma inactive_id_is_not_listed db r :
  Integrity.consistent db = true ->
  In r (appointments db) -> active (status r) = false ->
  (forall e answer,
      CustomerDashboard.loadAppointments_answer e db answer ->
      forall x, In x answer -> id x <> id r)
  /\ (forall e shop answer,
        BarberDashboard.loadAppointments_answer e db shop answer ->
        forall a, In a answer -> id (BarberDashboard.appointment a) <> id r).
Proof.
  intros Hc Hr Hinactive. split.
  - intros e answer [Hperm _] x Hx Hid.
    apply (Permutation_in _ (Permutation_sym Hperm)) in Hx.
    apply own_rows_spec in Hx. destruct Hx as [Hx [_ Hact]].
    apply active_spec in Hact.
    rewrite (one_status_per_id db r x Hc Hr Hx Hid) in Hact. congruence.
  - intros e shop answer [Hperm _] a Ha Hid.
    apply (Permutation_in _ (Permutation_sym Hperm)) in Ha.
    apply barber_rows_spec in Ha. destruct Ha as [x [-> [Hx [_ [_ Hact]]]]].
    simpl in Hid.
    rewrite (one_status_per_id db r x Hc Hr Hx Hid) in Hact. congruence.
Qed.

(** An appointment that its customer cancels, or that a barber of its shop
    completes, leaves every list: whatever the server answers afterwards,
    it is in no customer's list and on no barber's panel. *)
Theorem ended_appointments_leave_the_lists e db k r :
  Integrity.consistent db = true ->
  nth_error (appointments db) k = Some r ->
  (user_id e = customer_id r ->
   (forall ec answer,
       CustomerDashboard.loadAppointments_answer ec
         (snd (CustomerDashboard.cancelAppointment e db (id r))) answer ->
       forall x, In x answer -> id x <> id r)
   /\ (forall eb shop answer,
         BarberDashboard.loadAppointments_answer eb
           (snd (CustomerDashboard.cancelAppointment e db (id r))) shop answer ->
         forall a, In a answer -> id (BarberDashboard.appointment a) <> id r))
  /\ (barber_of_shop db (user_id e) (shop_id r) = true ->
      (forall ec answer,
          CustomerDashboard.loadAppointments_answer ec
            (snd (BarberDashboard.completeService e db (id r))) answer ->
          forall x, In x answer -> id x <> id r)
      /\ (forall eb shop answer,
            BarberDashboard.loadAppointments_answer eb
              (snd (BarberDashboard.completeService e db (id r))) shop answer ->
            forall a, In a answer -> id (BarberDashboard.appointment a) <> id r)).
Proof.
  intros Hc Hk. split.
  - intros Hown.
    destruct (cancel_by_owner e db k r Hc Hk Hown) as [db' [Hrun Hrow]].
    pose proof (cancelAppointment_consistent e db (id r) Hc) as Hc'.
    rewrite Hrun in *. simpl snd in *.
    apply (inactive_id_is_not_listed db'
             (apply_update CustomerDashboard.cancelled_update r) Hc').
    + eapply nth_error_In. exact Hrow.
    + reflexivity.
  - intros Hb.
    destruct (complete_by_barber e db k r Hc Hk Hb) as [db' [Hrun Hrow]].
    pose proof (updateAppointmentStatus_consistent e db (id r) "completed" no_update Hc)
      as Hc'.
    unfold BarberDashboard.completeService in *. rewrite Hrun in *. simpl snd in *.
    apply (inactive_id_is_not_listed db'
             (apply_update (BarberDashboard.updateData e "completed" no_update) r) Hc').
    + eapply nth_error_In. exact Hrow.
    + reflexivity.
Qed.

Lemma ended_appointments_leave_the_lists_witness :
  Forall (fun a => id (BarberDashboard.appointment a) <> "a-1")
    (arrange BarberDashboard.ahead_or_levelb
       (BarberDashboard.loadAppointments_rows (Town.booking "carol" 500 "")
          (snd (CustomerDashboard.cancelAppointment (Town.booking "alice" 400 "")
                  Town.alice_then_bob "a-1"))
          Town.main_street)).
Proof.
  apply Forall_forall.
  apply (proj2 (proj1 (ended_appointments_leave_the_lists (Town.booking "alice" 400 "")
                         Town.alice_then_bob 0%nat
                         (Town.alice_row "waiting" None None None)
                         eq_refl eq_refl)
                 eq_refl)
           (Town.booking "carol" 500 "") Town.main_street).
  split.
  - vm_compute. apply Permutation_refl.
  - vm_compute. repeat constructor.
Defined.

(* ------------------------------------------------------------------ *)
(** *** The shops of a barber *)
(* ------------------------------------------------------------------ *)

Lemma shopList_In answer sh :
  In sh (BarberDashboard.shopList answer) <-> exists s, In (s, Some sh) answer.
Proof.
  induction answer as [|[s [x|]] rest IH]; simpl.
  - split; [intros []|intros [s []]].
  - split.
    + intros [<-|H]; [exists s; left; reflexivity|].
      apply IH in H. destruct H as [s' H]. exists s'. right. exact H.
    + intros [s' [H|H]]; [left; congruence|].
      right. apply IH. exists s'. exact H.
  - rewrite IH. split.
    + intros [s' H]. exists s'. right. exact H.
    + intros [s' [H|H]]; [discriminate H|]. exists s'. exact H.
Qed.

Lemma shopList_all answer :
  (forall item, In item answer -> snd item <> None) ->
  List.length (BarberDashboard.shopList answer) = List.length answer.
Proof.
  induction answer as [|[s [x|]] rest IH]; intros H; simpl.
  - reflexivity.
  - f_equal. apply IH. intros item Hitem. apply H. right. exact Hitem.
  - exfalso. apply (H (s, None)); [left; reflexivity|reflexivity].
Qed.

Lemma loadShops_rows_spec e db s o :
  In (s, o) (BarberDashboard.loadShops_rows e db)
  <-> exists sb, In sb (shop_barbers db) /\ sb_barber_id sb = user_id e
                 /\ sb_shop_id sb = s /\ o = embedded_shop db s.
Proof.
  unfold BarberDashboard.loadShops_rows. rewrite in_map_iff. split.
  - intros [sb [Heq Hsb]]. apply filter_In in Hsb. destruct Hsb as [Hsb Hb].
    injection Heq as <- <-. exists sb. split; [exact Hsb|].
    split; [apply String.eqb_eq; exact Hb|]. split; reflexivity.
  - intros [sb [Hsb [Hb [<- ->]]]]. exists sb. split; [reflexivity|].
    apply filter_In. split; [exact Hsb|]. apply String.eqb_eq. exact Hb.
Qed.

(** [loadShops] of the barber dashboard: whatever the server answers, every
    shop listed is a stored shop the caller is associated with; a shop
    already selected stays selected, and with none selected the first of a
    non-empty list is; with the references of the migration in place no
    association is dropped from the list. *)
Theorem barber_shops_are_own e db answer st :
  BarberDashboard.loadShops_answer e db answer ->
  (forall sh, In sh (BarberDashboard.shops (BarberDashboard.loadShops answer st)) ->
              In sh (shops db) /\ barber_of_shop db (user_id e) (shop_pk sh) = true)
  /\ (forall sh, BarberDashboard.selectedShop st = Some sh ->
                 BarberDashboard.selectedShop (BarberDashboard.loadShops answer st) = Some sh)
  /\ (BarberDashboard.selectedShop st = None ->
      BarberDashboard.selectedShop (BarberDashboard.loadShops answer st)
      = hd_error (BarberDashboard.shops (BarberDashboard.loadShops answer st)))
  /\ (Integrity.consistent db = true ->
      List.length (BarberDashboard.shops (BarberDashboard.loadShops answer st))
      = List.length (filter (fun sb => sb_barber_id sb =? user_id e) (shop_barbers db))).
Proof.
  intros Hperm. split; [|split; [|split]].
  - intros sh Hsh. simpl in Hsh. apply shopList_In in Hsh. destruct Hsh as [s Hs].
    apply (Permutation_in _ (Permutation_sym Hperm)) in Hs.
    apply loadShops_rows_spec in Hs. destruct Hs as [sb [Hsb [Hb [Hshop Hfind]]]].
    symmetry in Hfind. apply find_some in Hfind. destruct Hfind as [Hin Hpk].
    split; [exact Hin|]. apply String.eqb_eq in Hpk.
    unfold barber_of_shop. apply existsb_exists. exists sb. split; [exact Hsb|].
    rewrite Hshop, Hpk, Hb, !String.eqb_refl. reflexivity.
  - intros sh Hsel. simpl. rewrite Hsel.
    destruct (BarberDashboard.shopList answer); reflexivity.
  - intros Hsel. simpl. rewrite Hsel.
    destruct (BarberDashboard.shopList answer); reflexivity.
  - intros Hc. simpl. rewrite shopList_all.
    + rewrite <- (Permutation_length Hperm).
      unfold BarberDashboard.loadShops_rows. apply length_map.
    + intros [s o] Hitem. simpl.
      apply (Permutation_in _ (Permutation_sym Hperm)) in Hitem.
      apply loadShops_rows_spec in Hitem. destruct Hitem as [sb [Hsb [_ [Hshop ->]]]].
      destruct (consistent_parts db Hc) as [_ [_ Hassoc]].
      specialize (Hassoc sb Hsb). unfold Integrity.association_ok in Hassoc.
      apply andb_prop in Hassoc. destruct Hassoc as [Hexists _].
      rewrite Hshop in Hexists. unfold shop_exists in Hexists.
      apply existsb_find in Hexists. destruct Hexists as [sh Hfind].
      unfold embedded_shop. rewrite Hfind. discriminate.
Qed.

Lemma barber_shops_are_own_witness :
  let st := BarberDashboard.loadShops [("shop-1", Some Town.main_street)]
              (BarberDashboard.mkState [] None [] false) in
  (forall sh, In sh (BarberDashboard.shops st) ->
              In sh (shops Town.empty_queue)
              /\ barber_of_shop Town.empty_queue "carol" (shop_pk sh) = true)
  /\ BarberDashboard.selectedShop st = hd_error (BarberDashboard.shops st).
Proof.
  destruct (barber_shops_are_own (Town.booking "carol" 100 "") Town.empty_queue
              [("shop-1", Some Town.main_street)]
              (BarberDashboard.mkState [] None [] false)) as [Hown [_ [Hfirst _]]].
  - vm_compute. apply Permutation_refl.
  - split; [exact Hown|]. apply Hfirst. reflexivity.
Defined.

(* ------------------------------------------------------------------ *)
(** *** Which dashboard a user is shown *)
(* ------------------------------------------------------------------ *)

Lemma same_profile_id_same_profile l (p q : Profile) :
  NoDup (map profile_id l) -> In p l -> In q l -> profile_id p = profile_id q -> p = q.
Proof.
  induction l as [|x rest IH]; intros Hnd Hp Hq Hid; [destruct Hp|].
  simpl in Hnd. inversion Hnd as [|? ? Hx Hrest]; subst.
  destruct Hp as [<-|Hp], Hq as [<-|Hq].
  - reflexivity.
  - exfalso. apply Hx. rewrite Hid. apply in_map. exact Hq.
  - exfalso. apply Hx. rewrite <- Hid. apply in_map. exact Hp.
  - apply IH; assumption.
Qed.

(** [App] shows a dashboard only to a signed-in user with a profile, once
    loading is over.  For a stored profile (unique id, a role the CHECK
    admits) the choice agrees with the policies: who is shown the customer
    dashboard passes the role test of the INSERT policy of appointments,
    and who is shown the barber dashboard does not. *)
Theorem routing_agrees_with_the_insert_policy db p isLogin :
  Integrity.distinct (map profile_id (profiles db)) = true ->
  In p (profiles db) ->
  role_check (role p) = true ->
  (forall user profile loading,
      App.App user profile loading isLogin = App.BarberDashboardScreen
      \/ App.App user profile loading isLogin = App.CustomerDashboardScreen ->
      loading = false /\ user <> None /\ profile <> None)
  /\ (App.App (Some (profile_id p)) (Some p) false isLogin = App.CustomerDashboardScreen ->
      has_role db (profile_id p) "customer" = true)
  /\ (App.App (Some (profile_id p)) (Some p) false isLogin = App.BarberDashboardScreen ->
      has_role db (profile_id p) "customer" = false).
Proof.
  intros Hd Hp Hrole. split; [|split].
  - intros user profile loading H. unfold App.App in H.
    destruct loading; [destruct H; discriminate|].
    destruct user as [u|], profile as [q|];
      try (destruct isLogin; destruct H; discriminate).
    repeat split; discriminate.
  - unfold App.App. simpl. unfold role_check in Hrole.
    destruct (role p =? "barber") eqn:Hb; [discriminate|]. intros _.
    simpl in Hrole. unfold has_role. apply existsb_exists.
    exists p. split; [exact Hp|]. rewrite Hrole, String.eqb_refl. reflexivity.
  - unfold App.App. simpl.
    destruct (role p =? "barber") eqn:Hb; [|discriminate]. intros _.
    apply String.eqb_eq in Hb.
    destruct (has_role db (profile_id p) "customer") eqn:Hhas; [|reflexivity].
    unfold has_role in Hhas. apply existsb_exists in Hhas.
    destruct Hhas as [q [Hq Hmatch]]. apply andb_prop in Hmatch.
    destruct Hmatch as [Hid Hcust]. apply String.eqb_eq in Hid, Hcust.
    assert (q = p) as ->
      by (apply (same_profile_id_same_profile (profiles db));
          [apply distinct_NoDup; exact Hd|assumption|assumption|exact Hid]).
    rewrite Hb in Hcust. discriminate Hcust.
Qed.

Lemma routing_agrees_with_the_insert_policy_witness :
  has_role Town.empty_queue "alice" "customer" = true
  /\ has_role Town.empty_queue "carol" "customer" = false.
Proof.
  split.
  - apply (proj1 (proj2 (routing_agrees_with_the_insert_policy Town.empty_queue
                           Town.alice true eq_refl (or_introl eq_refl) eq_refl))).
    reflexivity.
  - apply (proj2 (proj2 (routing_agrees_with_the_insert_policy Town.empty_queue
                           Town.carol true eq_refl
                           (or_intror (or_intror (or_introl eq_refl))) eq_refl))).
    reflexivity.
Defined.

(* ------------------------------------------------------------------ *)
(** *** Who may cancel, and who changes nothing *)
(* ------------------------------------------------------------------ *)

(** The customer of an appointment can cancel it in whatever state it is,
    in the chair included: the request reports no error and stores
    [cancelled], leaving every other column (the barber and the start time
    too) as it was. *)
Theorem owner_can_always_cancel e db k r :
  Integrity.consistent db = true ->
  nth_error (appointments db) k = Some r ->
  user_id e = customer_id r ->
  exists db' r',
    CustomerDashboard.cancelAppointment e db (id r) = (None, db')
    /\ nth_error (appointments db') k = Some r'
    /\ status r' = "cancelled" /\ Queue.same_but_status r r'.
Proof.
  intros Hc Hk Hown.
  destruct (cancel_by_owner e db k r Hc Hk Hown) as [db' [Hrun Hrow]].
  exists db'. eexists. split; [exact Hrun|]. split; [exact Hrow|].
  split; [reflexivity|]. repeat split.
Qed.

Lemma owner_can_always_cancel_witness :
  exists db' r',
    CustomerDashboard.cancelAppointment (Town.booking "alice" 250 "")
      Town.alice_in_chair "a-1" = (None, db')
    /\ nth_error (appointments db') 0 = Some r'
    /\ status r' = "cancelled"
    /\ Queue.same_but_status
         (Town.alice_row "in_progress" (Some "carol") (Some 200) None) r'.
Proof.
  apply (owner_can_always_cancel (Town.booking "alice" 250 "") Town.alice_in_chair 0%nat
           (Town.alice_row "in_progress" (Some "carol") (Some 200) None)).
  - reflexivity.
  - reflexivity.
  - reflexivity.
Defined.

(** [updateAppointmentStatus] asked by a user who is neither a barber of
    the appointment's shop nor its customer changes nothing, and does so
    silently: the update selects no row, the server reports no error and
    the handler runs to its end without its alert. *)
Theorem update_by_a_stranger_is_silent e db target st updates :
  (forall r, In r (appointments db) -> id r = target ->
             user_id e <> customer_id r
             /\ barber_of_shop db (user_id e) (shop_id r) = false) ->
  BarberDashboard.updateAppointmentStatus e db target st updates = (returned, db).
Proof.
  intros Hstranger. unfold BarberDashboard.updateAppointmentStatus.
  rewrite update_matches_nothing; [reflexivity|].
  intros r Hr. rewrite update_target_by_policy.
  destruct (id r =? target) eqn:Hid; [|reflexivity].
  apply String.eqb_eq in Hid. destruct (Hstranger r Hr Hid) as [Hne Hnb].
  unfold update_using, customer_update_using, barber_update_using.
  apply String.eqb_neq in Hne. rewrite Hne, Hnb. reflexivity.
Qed.

Lemma update_by_a_stranger_is_silent_witness :
  BarberDashboard.updateAppointmentStatus (Town.booking "dave" 200 "")
    Town.alice_waiting "a-1" "in_progress" no_update
  = (returned, Town.alice_waiting).
Proof.
  apply (update_by_a_stranger_is_silent (Town.booking "dave" 200 "")
           Town.alice_waiting "a-1" "in_progress" no_update).
  intros r [<-|[]] _. split; [discriminate|reflexivity].
Defined.
